(** * Debtify: the persistence and query layer of [main.py]

    A shallow embedding of class [Database] and of the two dialogs that
    feed it ([EditTransactionWindow.get_info], [MainWindow.add_tx],
    [MainWindow.edit_tx]).  The program talks to SQLite through SQL text;
    the embedding gives each statement the meaning SQLite gives it:

    - TEXT values are UTF-8 byte strings ([string]); they compare with the
      BINARY collation (byte-wise), and [LIKE] reads them character by
      character, folding case for ASCII letters only;
    - REAL values are IEEE binary64 numbers ([spec_float] of the Standard
      Library at precision 53); a NaN bound to a statement is stored as
      NULL, and a negative zero is read back as [0.0];
    - INTEGER PRIMARY KEY AUTOINCREMENT keeps, per table, the largest
      rowid ever handed out ([seq]);
    - a connection opened by [sqlite3.connect] has foreign-key enforcement
      switched off until [PRAGMA foreign_keys=ON] is executed.

    Outside the model: SQLite integers are 64-bit (rowids are [Z] here and
    the ceiling [2^63-1] is never reached); TEXT values hold no NUL
    character; rows of a table are listed in rowid order, which is the
    order a table scan visits them. *)

From Stdlib Require Import ZArith NArith List String Ascii Bool Lia.
From Stdlib Require Import Permutation Sorted QArith.
From Stdlib Require Import Floats.SpecFloat DecimalString.
Import ListNotations.

Local Open Scope string_scope.
Local Open Scope list_scope.
Local Open Scope Z_scope.

(** ** Results of calls that may raise *)

Inductive exn : Type :=
| IntegrityError (msg : string)      (* sqlite3.IntegrityError *)
| OperationalError (msg : string)    (* sqlite3.OperationalError *)
| ValueError (msg : string)
| InvalidOperation.                  (* decimal.InvalidOperation *)

Inductive result (A : Type) : Type :=
| Ok (a : A)
| Raise (e : exn).
Arguments Ok {A} a.
Arguments Raise {A} e.

Definition bind {A B} (r : result A) (k : A -> result B) : result B :=
  match r with
  | Ok a => k a
  | Raise e => Raise e
  end.

Notation "x <- r ;; k" := (bind r (fun x => k))
  (at level 61, r at next level, right associativity).

(** ** TEXT values *)

Module Text.

(** Bytes of a string, as numbers. *)
Definition bytes (s : string) : list N :=
  map N_of_ascii (list_ascii_of_string s).

(** [sqlite3Utf8Read]: one character from a UTF-8 byte sequence.  A lead
    byte below [0xC0] is the character itself; a lead byte from [0xC0] on
    keeps its payload bits and absorbs every continuation byte that
    follows. *)
Definition utf8_trans1 (b : N) : N :=
  (if b <? 0xE0 then N.land b 0x1F
   else if b <? 0xF0 then N.land b 0x0F
   else if b <? 0xF8 then N.land b 0x07
   else if b <? 0xFC then N.land b 0x03
   else if b <? 0xFE then N.land b 0x01
   else 0)%N.

Definition is_continuation (b : N) : bool := (N.land b 0xC0 =? 0x80)%N.

Definition utf8_finish (c : N) : N :=
  (if (c <? 0x80) || (N.land c 0xFFFFF800 =? 0xD800)
      || (N.land c 0xFFFFFFFE =? 0xFFFE)
   then 0xFFFD else c)%N.

Definition utf8_push (c b : N) : N :=
  ((N.shiftl c 6 + N.land b 0x3F) mod 2 ^ 32)%N.

Fixpoint utf8_decode (cur : option N) (bs : list N) : list N :=
  match bs with
  | [] => match cur with Some c => [utf8_finish c] | None => [] end
  | b :: bs' =>
      match cur with
      | Some c =>
          if is_continuation b then utf8_decode (Some (utf8_push c b)) bs'
          else utf8_finish c ::
               (if (b <? 0xC0)%N then b :: utf8_decode None bs'
                else utf8_decode (Some (utf8_trans1 b)) bs')
      | None =>
          if (b <? 0xC0)%N then b :: utf8_decode None bs'
          else utf8_decode (Some (utf8_trans1 b)) bs'
      end
  end.

Definition chars (s : string) : list N := utf8_decode None (bytes s).

(** [sqlite3Tolower] on a character: ASCII letters only. *)
Definition tolower (c : N) : N :=
  (if (65 <=? c) && (c <=? 90) then c + 32 else c)%N.

Definition percent : N := 37.
Definition underscore : N := 95.

(** One pattern character against one subject character, as
    [patternCompare] does with [noCase] set: equal, or equal after ASCII
    case folding when both are ASCII, or the pattern character is [_]. *)
Definition like_char (c c2 : N) : bool :=
  ((c =? c2) || ((tolower c =? tolower c2) && (c <? 0x80) && (c2 <? 0x80))
   || (c =? underscore))%N.

(** The LIKE operator without ESCAPE: [%] stands for any run of
    characters, [_] for exactly one. *)
Fixpoint like_chars (p : list N) : list N -> bool :=
  match p with
  | [] => fun s => match s with [] => true | _ :: _ => false end
  | c :: p' =>
      if (c =? percent)%N then
        fix star (s : list N) : bool :=
          like_chars p' s
          || match s with [] => false | _ :: s' => star s' end
      else
        fun s =>
          match s with
          | [] => false
          | c2 :: s' => like_char c c2 && like_chars p' s'
          end
  end.

(** [subject LIKE pattern]. *)
Definition like (subject pattern : string) : bool :=
  like_chars (chars pattern) (chars subject).

(** SQLITE_LIMIT_LIKE_PATTERN_LENGTH, in bytes. *)
Definition like_pattern_limit : Z := 50000.

End Text.

(** ** Numbers: binary64 and [decimal.Decimal] *)

Module Num.

(** Python's [float] and SQLite's REAL: IEEE binary64. *)
Definition prec : Z := 53.
Definition emax : Z := 1024.
Definition float : Type := spec_float.

Definition fadd : float -> float -> float := SFadd prec emax.
Definition fneg : float -> float := SFopp.
Definition fzero : float := S754_zero false.

Definition is_nan (x : float) : bool :=
  match x with S754_nan => true | _ => false end.

Definition is_zero (x : float) : bool :=
  match x with S754_zero _ => true | _ => false end.

(** [x <= y] on REAL values (false as soon as one is a NaN). *)
Definition fleb : float -> float -> bool := SFleb.
Definition feqb : float -> float -> bool := SFeqb.

(** What a REAL column gives back for a number bound to it.  SQLite
    writes a REAL that is a whole number as an integer and turns it into
    a REAL again when it is read, which returns the number itself except
    that a negative zero comes back as [0.0]. *)
Definition real_column (x : float) : float :=
  match x with
  | S754_zero _ => S754_zero false
  | _ => x
  end.

(** The quotient [n/d] of two positive integers, rounded to the nearest
    binary64 number, ties to even. *)
Definition float_of_ratio (neg : bool) (n d : positive) : float :=
  let '(q, e, l) := SFdiv_core_binary prec emax (Zpos n) 0 (Zpos d) 0 in
  binary_round_aux prec emax neg q e l.

(** The exact value of a finite float, as a fraction. *)
Definition ratio_of_finite (m : positive) (e : Z) : positive * positive :=
  match e with
  | Zpos k => (m * 2 ^ k, 1)%positive
  | Z0 => (m, 1%positive)
  | Zneg k => (m, 2 ^ k)%positive
  end.

Definition float_value (x : float) : option Q :=
  match x with
  | S754_zero _ => Some 0%Q
  | S754_finite s m e =>
      let '(n, d) := ratio_of_finite m e in
      Some (Qmake (if s then Zneg n else Zpos n) d)
  | _ => None
  end.

(** A [decimal.Decimal]: coefficient and exponent ([coef * 10^exp]), an
    infinity, or a NaN.  The sign of a zero is not kept. *)
Inductive decimal : Type :=
| DFin (coef : Z) (exp : Z)
| DInf (negative : bool)
| DNaN (signaling : bool).

Definition dec_zero : decimal := DFin 0 0.

Definition pow10 (k : Z) : Z := 10 ^ k.

Definition dec_value (d : decimal) : option Q :=
  match d with
  | DFin c e =>
      Some (if 0 <=? e then inject_Z (c * pow10 e)
            else Qmake c (Z.to_pos (pow10 (- e))))
  | _ => None
  end.

(** [d <= 0]; an ordering comparison with a NaN signals InvalidOperation,
    which the default context traps. *)
Definition dec_le0 (d : decimal) : result bool :=
  match d with
  | DFin c _ => Ok (c <=? 0)
  | DInf neg => Ok neg
  | DNaN _ => Raise InvalidOperation
  end.

(** [float(d)]: the nearest binary64 number; a signaling NaN cannot be
    converted. *)
Definition float_of_decimal (d : decimal) : result float :=
  match d with
  | DFin c e =>
      Ok match c with
         | Z0 => S754_zero false
         | Zpos p =>
             if 0 <=? e then float_of_ratio false (p * Z.to_pos (pow10 e)) 1
             else float_of_ratio false p (Z.to_pos (pow10 (- e)))
         | Zneg p =>
             if 0 <=? e then float_of_ratio true (p * Z.to_pos (pow10 e)) 1
             else float_of_ratio true p (Z.to_pos (pow10 (- e)))
         end
  | DInf neg => Ok (S754_infinity neg)
  | DNaN false => Ok S754_nan
  | DNaN true => Raise (ValueError "cannot convert signaling NaN to float")
  end.

(** Number of decimal digits of a positive integer. *)
Definition ndigits (n : positive) : Z :=
  Z.of_nat (Decimal.nb_digits (Pos.to_uint n)).

(** Rounding a coefficient to [p] significant digits, ties to even (the
    default context has [p = 28]). *)
Definition dec_round (p : Z) (c e : Z) : decimal :=
  match c with
  | Z0 => DFin 0 e
  | _ =>
      let a := Z.abs c in
      let k := ndigits (Z.to_pos a) - p in
      if k <=? 0 then DFin c e
      else
        let q := a / pow10 k in
        let r := a mod pow10 k in
        let up :=
          match Z.compare (2 * r) (pow10 k) with
          | Lt => false
          | Eq => Z.odd q
          | Gt => true
          end in
        let q' := if up then q + 1 else q in
        DFin (if c <? 0 then - q' else q') (e + k)
  end.

Definition context_prec : Z := 28.

(** [a + b] in the default context: a signaling NaN signals
    InvalidOperation, a quiet NaN gives a quiet NaN. *)
Definition dec_add (a b : decimal) : result decimal :=
  match a, b with
  | DNaN true, _ | _, DNaN true => Raise InvalidOperation
  | DNaN false, _ | _, DNaN false => Ok (DNaN false)
  | DInf s1, DInf s2 =>
      if Bool.eqb s1 s2 then Ok (DInf s1) else Raise InvalidOperation
  | DInf s, _ | _, DInf s => Ok (DInf s)
  | DFin c1 e1, DFin c2 e2 =>
      let e := Z.min e1 e2 in
      Ok (dec_round context_prec
            (c1 * pow10 (e1 - e) + c2 * pow10 (e2 - e)) e)
  end.

(** [floor (log10 (n/d))]. *)
Definition floor_log10 (n d : positive) : Z :=
  let k := ndigits n - ndigits d in
  let below :=
    if 0 <=? k then Zpos n <? pow10 k * Zpos d
    else Zpos n * pow10 (- k) <? Zpos d in
  if below then k - 1 else k.

(** The two neighbours of [n/d] among the decimals with last digit at
    [10^q], with the one Python's [repr] prefers when both read back as
    [x]: the closer one, the even one on a tie. *)
Definition repr_candidate (x : float) (n d : positive) (q : Z)
  : option (Z * Z) :=
  let num := if 0 <=? q then Zpos n else Zpos n * pow10 (- q) in
  let den := if 0 <=? q then Zpos d * pow10 q else Zpos d in
  let lo := num / den in
  let r := num mod den in
  let hi := lo + 1 in
  let back (c : Z) : bool :=
    match float_of_decimal (DFin c q) with
    | Ok y => feqb y x
    | Raise _ => false
    end in
  match back lo, back hi with
  | true, true =>
      match Z.compare (2 * r) den with
      | Lt => Some (lo, q)
      | Gt => Some (hi, q)
      | Eq => Some (if Z.even lo then lo else hi, q)
      end
  | true, false => Some (lo, q)
  | false, true => Some (hi, q)
  | false, false => None
  end.

Fixpoint repr_search (fuel : nat) (p : Z) (x : float) (n d : positive)
  (k : Z) : Z * Z :=
  match fuel with
  | O => (Zpos n * pow10 (p - 1 - k) / Zpos d, k - p + 1)
  | S fuel' =>
      match repr_candidate x n d (k - p + 1) with
      | Some r => r
      | None => repr_search fuel' (p + 1) x n d k
      end
  end.

(** [Decimal(str(x))]: [str] of a float is the shortest decimal that
    reads back as the same float (at most 17 significant digits). *)
Definition decimal_of_float_str (x : float) : decimal :=
  match x with
  | S754_zero _ => DFin 0 (-1)
  | S754_infinity s => DInf s
  | S754_nan => DNaN false
  | S754_finite s m e =>
      let '(n, d) := ratio_of_finite m e in
      let '(c, q) := repr_search 17 1 (S754_finite false m e) n d
                       (floor_log10 n d) in
      DFin (if s then - c else c) q
  end.

End Num.

(** ** The database *)

(** Rows of the two relations created by [Database._init]. *)
Record category : Type := {
  cat_id : Z;                        (* id INTEGER PRIMARY KEY AUTOINCREMENT *)
  cat_name : string;                 (* name TEXT NOT NULL UNIQUE *)
  cat_kind : string                  (* kind TEXT NOT NULL CHECK(...) *)
}.

Record transaction : Type := {
  tx_id : Z;                         (* id INTEGER PRIMARY KEY AUTOINCREMENT *)
  tx_dt : string;                    (* dt TEXT NOT NULL *)
  tx_kind : string;                  (* kind TEXT NOT NULL CHECK(...) *)
  tx_amount : Num.float;             (* amount REAL NOT NULL *)
  tx_category_id : option Z;         (* category_id INTEGER, REFERENCES ... *)
  tx_description : option string;    (* description TEXT *)
  tx_created_at : string             (* created_at TEXT NOT NULL DEFAULT now *)
}.

(** A table with AUTOINCREMENT: its rows, in rowid order, and its entry in
    [sqlite_sequence]. *)
Record table (R : Type) : Type := {
  rows : list R;
  seq : Z
}.
Arguments rows {R} t.
Arguments seq {R} t.

Definition empty_table {R : Type} : table R := {| rows := []; seq := 0 |}.

(** The file [finance_journal.db]: each relation may be missing. *)
Record db_file : Type := {
  file_categories : option (table category);
  file_transactions : option (table transaction)
}.

(** What [sqlite3.connect] returns: the file and the connection's own
    settings. *)
Record connection : Type := {
  conn_foreign_keys : bool;
  conn_file : db_file
}.

Definition connect (f : db_file) : connection :=
  {| conn_foreign_keys := false; conn_file := f |}.

(** A [Database] object once its constructor has run: both relations
    exist. *)
Record Database : Type := {
  foreign_keys : bool;
  categories : table category;
  transactions : table transaction
}.

Definition with_categories (db : Database) (t : table category) : Database :=
  {| foreign_keys := foreign_keys db;
     categories := t;
     transactions := transactions db |}.

Definition with_transactions (db : Database) (t : table transaction)
  : Database :=
  {| foreign_keys := foreign_keys db;
     categories := categories db;
     transactions := t |}.

(** [conn.commit()]: what the file holds afterwards. *)
Definition commit (db : Database) : db_file :=
  {| file_categories := Some (categories db);
     file_transactions := Some (transactions db) |}.

(** *** Constraints and rowids *)

Definition max_rowid {R : Type} (id : R -> Z) (l : list R) : Z :=
  fold_right (fun r m => Z.max (id r) m) 0 l.

(** The rowid AUTOINCREMENT picks: one more than the largest rowid the
    table has ever held. *)
Definition new_rowid {R : Type} (id : R -> Z) (t : table R) : Z :=
  Z.max (seq t) (max_rowid id (rows t)) + 1.

(** [CHECK(kind IN ('expense','income'))]. *)
Definition kind_check (k : string) : bool :=
  (k =? "expense")%string || (k =? "income")%string.

Definition check_failed : exn :=
  IntegrityError "CHECK constraint failed: kind IN ('expense','income')".

Definition unique_failed : exn :=
  IntegrityError "UNIQUE constraint failed: categories.name".

Definition not_null_failed : exn :=
  IntegrityError "NOT NULL constraint failed: transactions.amount".

Definition foreign_key_failed : exn :=
  IntegrityError "FOREIGN KEY constraint failed".

Definition has_category (cid : Z) (l : list category) : bool :=
  existsb (fun c => cat_id c =? cid) l.

Definition name_taken (name : string) (l : list category) : bool :=
  existsb (fun c => (cat_name c =? name)%string) l.

(** The foreign key of [transactions] is checked only on a connection
    that enforces foreign keys. *)
Definition reference_ok (db : Database) (cid : option Z) : bool :=
  match cid with
  | None => true
  | Some i => negb (foreign_keys db) || has_category i (rows (categories db))
  end.

(** *** Schema and defaults *)

Definition create_table_if_not_exists {R : Type} (t : option (table R))
  : table R :=
  match t with
  | Some t => t
  | None => empty_table
  end.

Definition defaults : list (string * string) :=
  [("Продукты", "expense"); ("Кафе и рестораны", "expense");
   ("Транспорт", "expense"); ("Развлечения", "expense");
   ("Зарплата", "income"); ("Подарки", "income");
   ("Проценты/Дивиденды", "income")].

(** [INSERT OR IGNORE INTO categories (name, kind) VALUES (?, ?)].  The
    rowid is drawn before the constraints are tested, so a row that is
    ignored still moves the AUTOINCREMENT counter. *)
Definition insert_or_ignore_category (db : Database) (name kind : string)
  : Database :=
  let t := categories db in
  let id := new_rowid cat_id t in
  if negb (kind_check kind) || name_taken name (rows t) then
    with_categories db {| rows := rows t; seq := id |}
  else
    with_categories db
      {| rows := rows t ++
                 [{| cat_id := id; cat_name := name; cat_kind := kind |}];
         seq := id |}.

(** The loop of [_create_defaults] over a list of pairs. *)
Definition seed (l : list (string * string)) (db : Database) : Database :=
  fold_left (fun db nk => insert_or_ignore_category db (fst nk) (snd nk))
    l db.

Definition _create_defaults (db : Database) : Database := seed defaults db.

Definition _init (c : connection) : Database :=
  _create_defaults
    {| foreign_keys := conn_foreign_keys c;
       categories := create_table_if_not_exists
                       (file_categories (conn_file c));
       transactions := create_table_if_not_exists
                         (file_transactions (conn_file c)) |}.

(** [Database(path)]. *)
Definition Database_new (f : db_file) : Database := _init (connect f).

(** *** Categories *)

Definition add_cat (db : Database) (name kind : string) : result Database :=
  let t := categories db in
  if negb (kind_check kind) then Raise check_failed
  else if name_taken name (rows t) then Raise unique_failed
  else
    let id := new_rowid cat_id t in
    Ok (with_categories db
          {| rows := rows t ++
                     [{| cat_id := id; cat_name := name; cat_kind := kind |}];
             seq := id |}).

Definition edit_cat (db : Database) (cid : Z) (name kind : string)
  : result Database :=
  let t := categories db in
  if has_category cid (rows t) then
    if negb (kind_check kind) then Raise check_failed
    else if existsb (fun c => (cat_name c =? name)%string
                              && negb (cat_id c =? cid)) (rows t)
    then Raise unique_failed
    else
      Ok (with_categories db
            {| rows := map (fun c =>
                              if cat_id c =? cid then
                                {| cat_id := cid; cat_name := name;
                                   cat_kind := kind |}
                              else c) (rows t);
               seq := seq t |})
  else Ok db.

(** [ON DELETE SET NULL], when the connection enforces foreign keys. *)
Definition set_null (cid : Z) (t : transaction) : transaction :=
  match tx_category_id t with
  | Some i =>
      if i =? cid then
        {| tx_id := tx_id t; tx_dt := tx_dt t; tx_kind := tx_kind t;
           tx_amount := tx_amount t; tx_category_id := None;
           tx_description := tx_description t;
           tx_created_at := tx_created_at t |}
      else t
  | None => t
  end.

Definition del_cat (db : Database) (cid : Z) : Database :=
  let cats := categories db in
  let txs := transactions db in
  {| foreign_keys := foreign_keys db;
     categories := {| rows := filter (fun c => negb (cat_id c =? cid))
                                (rows cats);
                      seq := seq cats |};
     transactions :=
       if foreign_keys db && has_category cid (rows cats) then
         {| rows := map (set_null cid) (rows txs); seq := seq txs |}
       else txs |}.

(** *** Transactions *)

Definition has_transaction (tid : Z) (l : list transaction) : bool :=
  existsb (fun t => tx_id t =? tid) l.

(** [now] is what [datetime('now')] reads from the clock. *)
Definition add_tx (db : Database) (now : string) (dt kind : string)
  (amount : Num.decimal) (cat_id : option Z) (desc : option string)
  : result Database :=
  x <- Num.float_of_decimal amount ;;
  let t := transactions db in
  if Num.is_nan x then Raise not_null_failed
  else if negb (kind_check kind) then Raise check_failed
  else if negb (reference_ok db cat_id) then Raise foreign_key_failed
  else
    let id := new_rowid tx_id t in
    Ok (with_transactions db
          {| rows := rows t ++
                     [{| tx_id := id; tx_dt := dt; tx_kind := kind;
                         tx_amount := Num.real_column x;
                         tx_category_id := cat_id;
                         tx_description := desc; tx_created_at := now |}];
             seq := id |}).

Definition edit_tx (db : Database) (tid : Z) (dt kind : string)
  (amount : Num.decimal) (cat_id : option Z) (desc : option string)
  : result Database :=
  x <- Num.float_of_decimal amount ;;
  let t := transactions db in
  if has_transaction tid (rows t) then
    if Num.is_nan x then Raise not_null_failed
    else if negb (kind_check kind) then Raise check_failed
    else if negb (reference_ok db cat_id) then Raise foreign_key_failed
    else
      Ok (with_transactions db
            {| rows := map (fun r =>
                              if tx_id r =? tid then
                                {| tx_id := tid; tx_dt := dt; tx_kind := kind;
                                   tx_amount := Num.real_column x;
                                   tx_category_id := cat_id;
                                   tx_description := desc;
                                   tx_created_at := tx_created_at r |}
                              else r) (rows t);
               seq := seq t |})
  else Ok db.

Definition del_tx (db : Database) (tid : Z) : Database :=
  let t := transactions db in
  with_transactions db
    {| rows := filter (fun r => negb (tx_id r =? tid)) (rows t);
       seq := seq t |}.

(** [SELECT * FROM transactions WHERE id=?] and [fetchone()], as
    [MainWindow.edit_tx] reads a record back. *)
Definition get_transaction (db : Database) (tid : Z) : option transaction :=
  find (fun t => tx_id t =? tid) (rows (transactions db)).

(** *** Queries *)

(** [ORDER BY]: a stable insertion sort serves where the sort key leaves
    no ties; [sql_order_by] is what the clause promises in general. *)
Fixpoint insert_sorted {A : Type} (leb : A -> A -> bool) (x : A)
  (l : list A) : list A :=
  match l with
  | [] => [x]
  | y :: l' => if leb x y then x :: l else y :: insert_sorted leb x l'
  end.

Definition order_by {A : Type} (leb : A -> A -> bool) (l : list A) : list A :=
  fold_right (insert_sorted leb) [] l.

Definition sql_order_by {A : Type} (leb : A -> A -> bool)
  (input output : list A) : Prop :=
  Permutation input output /\ Sorted (fun a b => leb a b = true) output.

(** [dt >= ?] and [dt <= ?], each added only when its argument is truthy. *)
Definition where_start (start : option string) (t : transaction) : bool :=
  match start with
  | Some s => if (s =? "")%string then true else String.leb s (tx_dt t)
  | None => true
  end.

Definition where_end (end_ : option string) (t : transaction) : bool :=
  match end_ with
  | Some s => if (s =? "")%string then true else String.leb (tx_dt t) s
  | None => true
  end.

(** [category_id = ?], added when [category] is truthy. *)
Definition where_category (category : option Z) (t : transaction) : bool :=
  match category with
  | Some c =>
      if c =? 0 then true
      else match tx_category_id t with
           | Some i => i =? c
           | None => false
           end
  | None => true
  end.

(** [t.kind = ?], added when [kind in ("expense", "income")]. *)
Definition where_kind (kind : option string) (t : transaction) : bool :=
  match kind with
  | Some k => if kind_check k then (tx_kind t =? k)%string else true
  | None => true
  end.

(** A row of [SELECT t.*, c.name as category_name FROM transactions t
    LEFT JOIN categories c ON c.id=t.category_id]. *)
Record tx_row : Type := {
  row_tx : transaction;
  category_name : option string
}.

Definition join_category (db : Database) (t : transaction) : tx_row :=
  {| row_tx := t;
     category_name :=
       match tx_category_id t with
       | Some i =>
           option_map cat_name
             (find (fun c => cat_id c =? i) (rows (categories db)))
       | None => None
       end |}.

Definition like_null (subject : option string) (pattern : string) : bool :=
  match subject with
  | Some s => Text.like s pattern
  | None => false
  end.

(** [(description LIKE ? OR c.name LIKE ?)]. *)
Definition where_text (pattern : string) (r : tx_row) : bool :=
  like_null (tx_description (row_tx r)) pattern
  || like_null (category_name r) pattern.

(** [ORDER BY dt DESC, id DESC]: does [a] come no later than [b]? *)
Definition tx_order (a b : tx_row) : bool :=
  match String.compare (tx_dt (row_tx a)) (tx_dt (row_tx b)) with
  | Gt => true
  | Lt => false
  | Eq => tx_id (row_tx b) <=? tx_id (row_tx a)
  end.

Definition pattern_too_complex : exn :=
  OperationalError "LIKE or GLOB pattern too complex".

Definition find_tx (db : Database) (start end_ : option string)
  (category : option Z) (kind text : option string)
  : result (list tx_row) :=
  let joined := map (join_category db) (rows (transactions db)) in
  let sel :=
    filter (fun r => where_start start (row_tx r)
                     && where_end end_ (row_tx r)
                     && where_category category (row_tx r)
                     && where_kind kind (row_tx r)) joined in
  sel' <- match text with
          | Some s =>
              if (s =? "")%string then Ok sel
              else
                let pattern := ("%" ++ s ++ "%")%string in
                match sel with
                | [] => Ok []
                | _ :: _ =>
                    if Text.like_pattern_limit
                       <? Z.of_nat (String.length pattern)
                    then Raise pattern_too_complex
                    else Ok (filter (where_text pattern) sel)
                end
          | None => Ok sel
          end ;;
  Ok (order_by tx_order sel').

(** [SUM] over the REAL values of a group, in scan order; a NaN result
    reaches Python as NULL. *)
Definition sql_sum (xs : list Num.float) : option Num.float :=
  let s := fold_left Num.fadd xs Num.fzero in
  if Num.is_nan s then None else Some s.

(** [CASE WHEN kind='income' THEN amount ELSE -amount END]. *)
Definition signed_amount (t : transaction) : Num.float :=
  if (tx_kind t =? "income")%string then tx_amount t
  else Num.fneg (tx_amount t).

(** The distinct values of [dt], ascending: the groups of
    [GROUP BY dt ORDER BY dt]. *)
Fixpoint insert_key (k : string) (ks : list string) : list string :=
  match ks with
  | [] => [k]
  | k' :: ks' =>
      match String.compare k k' with
      | Lt => k :: ks
      | Eq => ks
      | Gt => k' :: insert_key k ks'
      end
  end.

Definition group_keys (l : list transaction) : list string :=
  fold_right insert_key [] (map tx_dt l).

Definition balance_rows (db : Database) (start end_ : option string)
  : list (string * option Num.float) :=
  let sel := filter (fun t => where_start start t && where_end end_ t)
               (rows (transactions db)) in
  map (fun d =>
         (d, sql_sum (map signed_amount
                        (filter (fun t => (tx_dt t =? d)%string) sel))))
    (group_keys sel).

(** [Decimal(str(r['delta'] or 0))]. *)
Definition delta_decimal (delta : option Num.float) : Num.decimal :=
  match delta with
  | None => Num.dec_zero
  | Some x => if Num.is_zero x then Num.dec_zero
              else Num.decimal_of_float_str x
  end.

(** The loop of [get_balance] from a given [total]. *)
Fixpoint running_total (total : Num.decimal)
  (rws : list (string * option Num.float))
  : result (list (string * Num.float)) :=
  match rws with
  | [] => Ok []
  | (dt, delta) :: rest =>
      total' <- Num.dec_add total (delta_decimal delta) ;;
      x <- Num.float_of_decimal total' ;;
      res <- running_total total' rest ;;
      Ok ((dt, x) :: res)
  end.

Definition get_balance (db : Database) (start end_ : option string)
  : result (list (string * Num.float)) :=
  running_total Num.dec_zero (balance_rows db start end_).

(** A group of [SELECT c.name, SUM(t.amount) ... JOIN categories c ON
    c.id=t.category_id ... GROUP BY c.id]: category ids are distinct, so
    there is one group for each category that has a selected
    transaction. *)
Record cat_group : Type := {
  group_category : category;
  group_total : option Num.float
}.

Definition in_group (start end_ kind : option string) (c : category)
  (t : transaction) : bool :=
  where_start start t && where_end end_ t && where_kind kind t
  && match tx_category_id t with
     | Some i => i =? cat_id c
     | None => false
     end.

Definition cat_groups (db : Database) (start end_ kind : option string)
  : list cat_group :=
  flat_map (fun c =>
              match filter (in_group start end_ kind c)
                      (rows (transactions db)) with
              | [] => []
              | g => [{| group_category := c;
                         group_total := sql_sum (map tx_amount g) |}]
              end)
    (rows (categories db)).

(** [ORDER BY total DESC]: NULL sorts below every number. *)
Definition totals_desc (x y : option Num.float) : bool :=
  match x, y with
  | _, None => true
  | None, Some _ => false
  | Some x, Some y => Num.fleb y x
  end.

Definition total_desc (a b : cat_group) : bool :=
  totals_desc (group_total a) (group_total b).

Definition cat_row (g : cat_group) : string * option Num.float :=
  (cat_name (group_category g), group_total g).

(** The query names no second sort key: any list of the groups that is
    descending in [total] is a result [fetchall] may return. *)
Definition cat_sums (db : Database) (start end_ kind : option string)
  (res : list (string * option Num.float)) : Prop :=
  exists gs,
    sql_order_by total_desc (cat_groups db start end_ kind) gs
    /\ res = map cat_row gs.

(** ** The editing dialog *)

(** [QDate], as [year()], [month()] and [day()] report it. *)
Record QDate : Type := {
  year : Z;
  month : Z;
  day : Z
}.

Definition is_leap (y : Z) : bool :=
  (y mod 4 =? 0) && (negb (y mod 100 =? 0) || (y mod 400 =? 0)).

Definition days_in_month (y m : Z) : Z :=
  if m =? 2 then (if is_leap y then 29 else 28)
  else if (m =? 4) || (m =? 6) || (m =? 9) || (m =? 11) then 30
  else 31.

Definition string_of_Z (z : Z) : string :=
  NilZero.string_of_int (Z.to_int z).

(** [%0wd] for a non-negative number. *)
Definition zero_pad (w : nat) (z : Z) : string :=
  let d := string_of_Z z in
  (string_of_list_ascii (repeat "0"%char (w - String.length d)) ++ d)%string.

(** [date(qd.year(), qd.month(), qd.day()).isoformat()]. *)
Definition to_iso (qd : QDate) : result string :=
  let y := year qd in
  let m := month qd in
  let d := day qd in
  if (y <? 1) || (9999 <? y) then
    Raise (ValueError ("year " ++ string_of_Z y ++ " is out of range"))
  else if (m <? 1) || (12 <? m) then
    Raise (ValueError "month must be in 1..12")
  else if (d <? 1) || (days_in_month y m <? d) then
    Raise (ValueError "day is out of range for month")
  else
    Ok (zero_pad 4 y ++ "-" ++ zero_pad 2 m ++ "-" ++ zero_pad 2 d)%string.

(** [s.replace(",", ".")]. *)
Fixpoint replace_comma (s : string) : string :=
  match s with
  | EmptyString => EmptyString
  | String c s' =>
      String (if (c =? ",")%char then "."%char else c) (replace_comma s')
  end.

(** The widgets of [EditTransactionWindow] when [get_info] reads them. *)
Record EditTransactionWindow : Type := {
  dlg_date : QDate;                  (* self.date.date() *)
  dlg_type : string;                 (* self.type.currentText() *)
  dlg_amount : string;               (* self.amount.text() *)
  dlg_cat : option Z;                (* self.cat.currentData() *)
  dlg_desc : string                  (* self.desc.toPlainText() *)
}.

Definition bad_format : exn := ValueError "Неверный формат суммы".
Definition not_positive : exn := ValueError "Сумма должна быть положительной".

Section Dialog.

(** Two functions of Python's library: [Decimal(text)], which is [None]
    where the constructor raises InvalidOperation, and [str.strip]. *)
Variable Decimal : string -> option Num.decimal.
Variable strip : string -> string.

Definition get_info (w : EditTransactionWindow)
  : result (string * string * Num.decimal * option Z * string) :=
  dt <- to_iso (dlg_date w) ;;
  let kind := dlg_type w in
  let raw := replace_comma (strip (dlg_amount w)) in
  money <- match Decimal raw with
           | Some d => Ok d
           | None => Raise bad_format
           end ;;
  le0 <- Num.dec_le0 money ;;
  if (le0 : bool) then Raise not_positive
  else Ok (dt, kind, money, dlg_cat w, strip (dlg_desc w)).

(** [MainWindow.add_tx] once the dialog has been accepted: the new
    state of the store and the exception shown in the warning box, if
    any. *)
Definition MainWindow_add_tx (db : Database) (now : string)
  (w : EditTransactionWindow) : Database * option exn :=
  match
    (info <- get_info w ;;
     let '(dt, kind, money, cat, desc) := info in
     add_tx db now dt kind money cat (Some desc))
  with
  | Ok db' => (db', None)
  | Raise e => (db, Some e)
  end.

End Dialog.

(** *** The library functions on plain ASCII text *)

Definition is_space (c : ascii) : bool :=
  let n := N_of_ascii c in
  ((n =? 32) || ((9 <=? n) && (n <=? 13)) || ((28 <=? n) && (n <=? 31)))%N.

Fixpoint lstrip (s : list ascii) : list ascii :=
  match s with
  | c :: s' => if is_space c then lstrip s' else s
  | [] => []
  end.

(** [str.strip] for text whose white space is ASCII. *)
Definition ascii_strip (s : string) : string :=
  string_of_list_ascii
    (rev (lstrip (rev (lstrip (list_ascii_of_string s))))).

Definition digit_value (c : ascii) : option Z :=
  let n := N_of_ascii c in
  if ((48 <=? n) && (n <=? 57))%N then Some (Z.of_N n - 48) else None.

(** Leading digits of [s]: their value after [acc], how many, the rest. *)
Fixpoint read_digits (acc : Z) (count : Z) (s : list ascii)
  : Z * Z * list ascii :=
  match s with
  | c :: s' =>
      match digit_value c with
      | Some d => read_digits (10 * acc + d) (count + 1) s'
      | None => (acc, count, s)
      end
  | [] => (acc, count, [])
  end.

Definition read_sign (s : list ascii) : bool * list ascii :=
  match s with
  | c :: s' =>
      if (c =? "-")%char then (true, s')
      else if (c =? "+")%char then (false, s')
      else (false, s)
  | [] => (false, [])
  end.

(** ASCII letters in lower case. *)
Definition ascii_lower (c : ascii) : ascii :=
  let n := N_of_ascii c in
  if ((65 <=? n) && (n <=? 90))%N then ascii_of_N (n + 32) else c.

Fixpoint all_digits (s : list ascii) : bool :=
  match s with
  | [] => true
  | c :: s' =>
      match digit_value c with
      | Some _ => all_digits s'
      | None => false
      end
  end.

(** [s] without the prefix [p], letter case apart. *)
Fixpoint after_word (p s : list ascii) : option (list ascii) :=
  match p, s with
  | [], _ => Some s
  | _ :: _, [] => None
  | a :: p', c :: s' =>
      if (a =? ascii_lower c)%char then after_word p' s' else None
  end.

(** A finite numeral: [digits [. [digits]] [(e|E) [sign] digits]] with
    a digit before or after the point. *)
Definition read_number (neg : bool) (s : list ascii)
  : option Num.decimal :=
  let '(int_part, n1, s) := read_digits 0 0 s in
  let '(coef, n2, s) :=
    match s with
    | c :: s' => if (c =? ".")%char then read_digits int_part 0 s'
                 else (int_part, 0, s)
    | [] => (int_part, 0, [])
    end in
  if n1 + n2 =? 0 then None
  else
    let signed := if (neg : bool) then - coef else coef in
    match s with
    | [] => Some (Num.DFin signed (- n2))
    | c :: s' =>
        if (c =? "e")%char || (c =? "E")%char then
          let '(eneg, s'') := read_sign s' in
          let '(e, n3, rest) := read_digits 0 0 s'' in
          match rest with
          | [] => if n3 =? 0 then None
                  else Some (Num.DFin signed
                               ((if (eneg : bool) then - e else e) - n2))
          | _ :: _ => None
          end
        else None
    end.

(** [Decimal(text)] for text written in ASCII.  White space around the
    text and underscores inside it are dropped; what is left is an
    optional sign followed by a finite numeral, by [Inf] or [Infinity],
    or by [NaN] or [sNaN] with optional digits, in any letter case.
    Anything else raises InvalidOperation ([None]). *)
Definition ascii_Decimal (text : string) : option Num.decimal :=
  let s := filter (fun c => negb (c =? "_")%char)
             (list_ascii_of_string (ascii_strip text)) in
  let '(neg, s) := read_sign s in
  match after_word (list_ascii_of_string "inf") s with
  | Some [] => Some (Num.DInf neg)
  | Some rest =>
      match after_word (list_ascii_of_string "inity") rest with
      | Some [] => Some (Num.DInf neg)
      | _ => None
      end
  | None =>
      match after_word (list_ascii_of_string "nan") s with
      | Some diag => if all_digits diag then Some (Num.DNaN false) else None
      | None =>
          match after_word (list_ascii_of_string "snan") s with
          | Some diag =>
              if all_digits diag then Some (Num.DNaN true) else None
          | None => read_number neg s
          end
      end
  end.

(** ** The search as the specification words it *)

Module Spec.

(** Case-insensitive comparison of two characters, with the folding
    SQLite has (ASCII letters). *)
Definition same_letter (a b : N) : bool :=
  (Text.tolower a =? Text.tolower b)%N.

Fixpoint prefix_nocase (t s : list N) : bool :=
  match t, s with
  | [], _ => true
  | _ :: _, [] => false
  | a :: t', b :: s' => same_letter a b && prefix_nocase t' s'
  end.

(** [t] occurs in [s], letter case apart. *)
Fixpoint contains_nocase (t s : list N) : bool :=
  prefix_nocase t s
  || match s with
     | [] => false
     | _ :: s' => contains_nocase t s'
     end.

Definition column_contains (text : string) (column : option string)
  : bool :=
  match column with
  | Some s => contains_nocase (Text.chars text) (Text.chars s)
  | None => false
  end.

(** The filter [{dateFrom?, dateTo?, categoryId?, kind?, textSearch?}]:
    the conjunction of the fields that are present. *)
Definition matches (start end_ : option string) (category : option Z)
  (kind text : option string) (r : tx_row) : bool :=
  let t := row_tx r in
  match start with Some d => String.leb d (tx_dt t) | None => true end
  && match end_ with Some d => String.leb (tx_dt t) d | None => true end
  && match category with
     | Some c => match tx_category_id t with
                 | Some i => i =? c
                 | None => false
                 end
     | None => true
     end
  && match kind with Some k => (tx_kind t =? k)%string | None => true end
  && match text with
     | Some x => column_contains x (tx_description t)
                 || column_contains x (category_name r)
     | None => true
     end.

(** Date descending, then id descending. *)
Definition newest_first (a b : tx_row) : Prop :=
  String.ltb (tx_dt (row_tx b)) (tx_dt (row_tx a)) = true
  \/ (tx_dt (row_tx a) = tx_dt (row_tx b)
      /\ tx_id (row_tx b) <= tx_id (row_tx a)).

End Spec.

(** ** The report by category as the specification words it *)

Module Report.

(** Does [t] count towards category [c]?  It refers to [c] and lies
    within the bounds and has the kind, where these are given. *)
Definition counts (start end_ kind : option string) (c : category)
  (t : transaction) : bool :=
  match tx_category_id t with
  | Some i => i =? cat_id c
  | None => false
  end
  && match start with Some d => String.leb d (tx_dt t) | None => true end
  && match end_ with Some d => String.leb (tx_dt t) d | None => true end
  && match kind with Some k => (tx_kind t =? k)%string | None => true end.

(** A category is reported when some transaction counts towards it. *)
Definition reported (db : Database) (start end_ kind : option string)
  (c : category) : bool :=
  existsb (counts start end_ kind c) (rows (transactions db)).

(** The amounts that count towards [c], added as binary64 numbers in
    the order of insertion; NULL if the sum is not a number. *)
Definition total (db : Database) (start end_ kind : option string)
  (c : category) : option Num.float :=
  let amounts :=
    map tx_amount
      (filter (counts start end_ kind c) (rows (transactions db))) in
  let sum := fold_left (SFadd 53 1024) amounts (S754_zero false) in
  match sum with
  | S754_nan => None
  | _ => Some sum
  end.

(** One row for each reported category. *)
Definition rows_of (db : Database) (start end_ kind : option string)
  : list (string * option Num.float) :=
  map (fun c => (cat_name c, total db start end_ kind c))
    (filter (reported db start end_ kind) (rows (categories db))).

(** [a] may stand before [b]: its total is not below that of [b], a
    missing total being below every number. *)
Definition descending (a b : string * option Num.float) : Prop :=
  match snd a, snd b with
  | Some x, Some y => SFleb y x = true
  | _, None => True
  | None, Some _ => False
  end.

End Report.

(** A search text without LIKE wildcards. *)
Definition plain_chars (t : list N) : bool :=
  forallb (fun c => negb (c =? Text.percent)%N
                    && negb (c =? Text.underscore)%N) t.

Definition plain_text (s : string) : bool := plain_chars (Text.chars s).

(** ** Stores, files and dialogs used in the examples *)

(** How many categories bear a name. *)
Definition count_name (n : string) (l : list category) : nat :=
  List.length (filter (fun c => (cat_name c =? n)%string) l).

(** The file before the application first runs. *)
Definition empty_file : db_file :=
  {| file_categories := None; file_transactions := None |}.

(** The state of the store after a call: a statement that raises is
    rolled back, and nothing is committed. *)
Definition store_after (db : Database) (r : result Database) : Database :=
  match r with
  | Ok db' => db'
  | Raise _ => db
  end.

Definition sample_dialog (amount : string) : EditTransactionWindow :=
  {| dlg_date := {| year := 2024; month := 1; day := 5 |};
     dlg_type := "expense";
     dlg_amount := amount;
     dlg_cat := Some 1;
     dlg_desc := " lunch " |}.

Definition clock : string := "2024-01-05 12:00:00".

(** Stores built through [add_tx] on a fresh file: two incomes of 0.1
    and 0.2 on one day; the ledger of three entries 100, 30 and 20 over
    two days; a taxi ride filed under the third default category. *)
Definition two_tenths : result Database :=
  db <- add_tx (Database_new empty_file) clock "2024-01-01" "income"
          (Num.DFin 1 (-1)) None None ;;
  add_tx db clock "2024-01-01" "income" (Num.DFin 2 (-1)) None None.

Definition three_entries : result Database :=
  db <- add_tx (Database_new empty_file) clock "2024-01-01" "income"
          (Num.DFin 100 0) None None ;;
  db <- add_tx db clock "2024-01-01" "expense" (Num.DFin 30 0) None None ;;
  add_tx db clock "2024-01-02" "income" (Num.DFin 20 0) None None.

Definition taxi_ride : result Database :=
  add_tx (Database_new empty_file) clock "2024-01-03" "expense"
    (Num.DFin 45000 (-2)) (Some 3) (Some "taxi home").


(** Two expenses of 10, one under each of the first two default
    categories. *)
Definition tied_totals : Database :=
  store_after (Database_new empty_file)
    (db <- add_tx (Database_new empty_file) clock "2024-03-01" "expense"
             (Num.DFin 10 0) (Some 1) None ;;
     add_tx db clock "2024-03-02" "expense" (Num.DFin 10 0) (Some 2) None).

(** A total that [SUM] can produce: NULL or a number. *)
Definition summed (g : cat_group) : Prop :=
  match group_total g with
  | Some x => Num.is_nan x = false
  | None => True
  end.

(** The store without the transactions that have no category. *)
Definition categorized_only (db : Database) : Database :=
  with_transactions db
    {| rows := filter (fun t => match tx_category_id t with
                                | Some _ => true
                                | None => false
                                end) (rows (transactions db));
       seq := seq (transactions db) |}.

(** Is [needle] a literal piece of the text in a column? *)
Definition occurs_in (needle : string) (column : option string) : bool :=
  match column with
  | Some s => match index 0 needle s with Some _ => true | None => false end
  | None => false
  end.

(** ** Listing categories *)

(** [ORDER BY name] and [ORDER BY kind, name], with the BINARY
    collation.  Names are unique in the table, so neither leaves a
    tie. *)
Definition name_order (a b : category) : bool :=
  String.leb (cat_name a) (cat_name b).

Definition kind_name_order (a b : category) : bool :=
  match String.compare (cat_kind a) (cat_kind b) with
  | Lt => true
  | Gt => false
  | Eq => String.leb (cat_name a) (cat_name b)
  end.

Definition get_cats (db : Database) (kind : option string)
  : list category :=
  let all := rows (categories db) in
  match kind with
  | Some k =>
      if kind_check k then
        order_by name_order (filter (fun c => (cat_kind c =? k)%string) all)
      else order_by kind_name_order all
  | None => order_by kind_name_order all
  end.

(** ** The category window and the main window *)

(** What a handler shows in a message box. *)
Inductive message : Type :=
| Warning (text : string)
| Information (text : string).

Definition empty_name : message := Warning "Название не может быть пустым".
Definition already_exists : message :=
  Warning "Такая категория уже существует".
Definition choose_category : message := Information "Выберите категорию".
Definition choose_record : message := Information "Выберите запись".
Definition not_found : message := Warning "Транзакция не найдена".

(** [str(e)] for the exceptions of this program. *)
Definition str_exn (e : exn) : string :=
  match e with
  | IntegrityError m => m
  | OperationalError m => m
  | ValueError m => m
  | InvalidOperation => "[<class 'decimal.InvalidOperation'>]"
  end.

Section Windows.

Variable Decimal : string -> option Num.decimal.
Variable strip : string -> string.

(** [CategoryWindow.add_cat]: the fields [name] and [kind] of the
    form.  Only [sqlite3.IntegrityError] is caught. *)
Definition CategoryWindow_add_cat (db : Database) (name kind : string)
  : result (Database * option message) :=
  let n := strip name in
  if (n =? "")%string then Ok (db, Some empty_name)
  else
    match add_cat db n kind with
    | Ok db' => Ok (db', None)
    | Raise (IntegrityError _) => Ok (db, Some already_exists)
    | Raise e => Raise e
    end.

(** [CategoryWindow.edit_cat]: [sel] is the id in the selected row of
    the table, if a row is selected. *)
Definition CategoryWindow_edit_cat (db : Database) (sel : option Z)
  (name kind : string) : Database * option message :=
  match sel with
  | None => (db, Some choose_category)
  | Some cid =>
      let n := strip name in
      if (n =? "")%string then (db, Some empty_name)
      else
        match edit_cat db cid n kind with
        | Ok db' => (db', None)
        | Raise e => (db, Some (Warning (str_exn e)))
        end
  end.

(** [CategoryWindow.del_cat]: [yes] is the answer to the question. *)
Definition CategoryWindow_del_cat (db : Database) (sel : option Z)
  (yes : bool) : Database * option message :=
  match sel with
  | None => (db, Some choose_category)
  | Some cid => if yes then (del_cat db cid, None) else (db, None)
  end.

(** [MainWindow.edit_tx] for a selected row whose dialog, once shown,
    is accepted with the fields [w]. *)
Definition MainWindow_edit_tx (db : Database) (sel : option Z)
  (w : EditTransactionWindow) : Database * option message :=
  match sel with
  | None => (db, Some choose_record)
  | Some tid =>
      match get_transaction db tid with
      | None => (db, Some not_found)
      | Some _ =>
          match
            (info <- get_info Decimal strip w ;;
             let '(dt, kind, money, cat, desc) := info in
             edit_tx db tid dt kind money cat (Some desc))
          with
          | Ok db' => (db', None)
          | Raise e => (db, Some (Warning (str_exn e)))
          end
      end
  end.

(** [MainWindow.delete_tx]. *)
Definition MainWindow_delete_tx (db : Database) (sel : option Z)
  (yes : bool) : Database * option message :=
  match sel with
  | None => (db, Some choose_record)
  | Some tid => if yes then (del_tx db tid, None) else (db, None)
  end.

(** [MainWindow.refresh]: the query it sends, from the filter widgets
    ([fc] is the data of the category box, [fk] the text of the kind
    box). *)
Definition MainWindow_refresh (db : Database) (fs fe : QDate)
  (fc : option Z) (fk fsr : string) : result (list tx_row) :=
  s <- to_iso fs ;;
  e <- to_iso fe ;;
  let k := if (fk =? "all")%string then None else Some fk in
  let text := if (strip fsr =? "")%string then None
              else Some (strip fsr) in
  find_tx db (Some s) (Some e) fc k text.

End Windows.

(** ** The state a database file is in *)

(** What the schema guarantees of every file SQLite has written through
    it: distinct ids below the AUTOINCREMENT counters, distinct category
    names, kinds that pass the CHECK, amounts that are not NULL. *)
Record consistent (db : Database) : Prop := {
  cat_ids_distinct : NoDup (map cat_id (rows (categories db)));
  cat_ids_counted :
    max_rowid cat_id (rows (categories db)) <= seq (categories db);
  cat_names_distinct : NoDup (map cat_name (rows (categories db)));
  cat_kinds_checked :
    Forall (fun c => kind_check (cat_kind c) = true)
      (rows (categories db));
  tx_ids_distinct : NoDup (map tx_id (rows (transactions db)));
  tx_ids_counted :
    max_rowid tx_id (rows (transactions db)) <= seq (transactions db);
  tx_kinds_checked :
    Forall (fun t => kind_check (tx_kind t) = true)
      (rows (transactions db));
  tx_amounts_not_null :
    Forall (fun t => Num.is_nan (tx_amount t) = false)
      (rows (transactions db))
}.

(** The calls a window can make on the store. *)
Inductive command : Type :=
| AddCat (name kind : string)
| EditCat (cid : Z) (name kind : string)
| DelCat (cid : Z)
| AddTx (now dt kind : string) (amount : Num.decimal) (cat : option Z)
    (desc : option string)
| EditTx (tid : Z) (dt kind : string) (amount : Num.decimal)
    (cat : option Z) (desc : option string)
| DelTx (tid : Z)
| Restart.

(** The store after a call, whether it returned or raised. *)
Definition run (db : Database) (c : command) : Database :=
  match c with
  | AddCat n k => store_after db (add_cat db n k)
  | EditCat i n k => store_after db (edit_cat db i n k)
  | DelCat i => del_cat db i
  | AddTx now dt k a c d => store_after db (add_tx db now dt k a c d)
  | EditTx i dt k a c d => store_after db (edit_tx db i dt k a c d)
  | DelTx i => del_tx db i
  | Restart => Database_new (commit db)
  end.

(** A session: two expenses of 10 under the first two default
    categories. *)
Definition two_expenses : Database :=
  fold_left run
    [AddTx clock "2024-03-01" "expense" (Num.DFin 10 0) (Some 1) None;
     AddTx clock "2024-03-02" "expense" (Num.DFin 10 0) (Some 2) None]
    (Database_new empty_file).

(** ** Arguments Python takes as absent *)

(** [if start:], [if end:], [if text:] on a string or [None]. *)
Definition truthy_text (s : option string) : option string :=
  match s with
  | Some x => if (x =? "")%string then None else Some x
  | None => None
  end.

(** [if category:] on an integer or [None]. *)
Definition truthy_id (c : option Z) : option Z :=
  match c with
  | Some i => if i =? 0 then None else Some i
  | None => None
  end.

(** [kind in ("expense", "income")]. *)
Definition listed_kind (kind : option string) : option string :=
  match kind with
  | Some k => if kind_check k then Some k else None
  | None => None
  end.

(** A text of [n] letters. *)
Definition long_text (n : Z) : string :=
  string_of_list_ascii (repeat "a"%char (Z.to_nat n)).

(** A parser that, like [Decimal], also reads the infinities. *)
Definition Decimal_with_infinity (text : string) : option Num.decimal :=
  if (text =? "Infinity")%string then Some (Num.DInf false)
  else if (text =? "-Infinity")%string then Some (Num.DInf true)
  else ascii_Decimal text.

(** The transactions [get_balance] selects. *)
Definition in_range (start end_ : option string) (t : transaction) : bool :=
  where_start start t && where_end end_ t.

(** ** Exact search *)





(** A joined row: a dinner under the second default category. *)
Definition dinner_row : tx_row :=
  {| row_tx := {| tx_id := 1; tx_dt := "2024-01-03"; tx_kind := "expense";
                  tx_amount := S754_finite false 7916483719987200 (-44);
                  tx_category_id := Some 2;
                  tx_description := Some "ужин";
                  tx_created_at := clock |};
     category_name := Some "Кафе и рестораны" |}.

(** ** Calendar order *)

(** Year, then month, then day. *)
Definition date_compare (a b : QDate) : comparison :=
  match year a ?= year b with
  | Eq => match month a ?= month b with
          | Eq => day a ?= day b
          | c => c
          end
  | c => c
  end.

(** The numbers [0 .. n-1]. *)
Definition below (n : Z) : list Z :=
  map Z.of_nat (List.seq 0 (Z.to_nat n)).

(** Two digits: the texts have length 2 and compare as the numbers do. *)
Definition two_digits_ok (u v : Z) : bool :=
  (String.length (zero_pad 2 u) =? 2)%nat
  && match String.compare (zero_pad 2 u) (zero_pad 2 v), u ?= v with
     | Eq, Eq | Lt, Lt | Gt, Gt => true
     | _, _ => false
     end.

(** Four digits are two digits twice. *)
Definition four_digits_ok (y : Z) : bool :=
  (zero_pad 4 y =? zero_pad 2 (y / 100) ++ zero_pad 2 (y mod 100))%string.

(** * Properties *)

(** ** Rowids *)

Lemma max_rowid_bound {R : Type} (id : R -> Z) (l : list R) (r : R) :
  In r l -> id r <= max_rowid id l.
Proof.
  induction l as [|a l IH]; simpl; [contradiction|].
  intros [->|H]; [lia|]. specialize (IH H). lia.
Qed.

Lemma new_rowid_fresh {R : Type} (id : R -> Z) (t : table R) (r : R) :
  In r (rows t) -> id r <> new_rowid id t.
Proof.
  intros H. apply (max_rowid_bound id) in H. unfold new_rowid. lia.
Qed.

Lemma max_rowid_nonneg {R : Type} (id : R -> Z) (l : list R) :
  0 <= max_rowid id l.
Proof. induction l as [|a l IH]; simpl; lia. Qed.

Lemma max_rowid_app {R : Type} (id : R -> Z) (l : list R) (r : R) :
  max_rowid id (l ++ [r]) = Z.max (max_rowid id l) (Z.max (id r) 0).
Proof.
  induction l as [|a l IH]; simpl; [lia|]. rewrite IH. lia.
Qed.

(** ** Opening the store *)

Lemma ioi_foreign_keys db n k :
  foreign_keys (insert_or_ignore_category db n k) = foreign_keys db.
Proof. unfold insert_or_ignore_category. now destruct (_ || _). Qed.

Lemma ioi_transactions db n k :
  transactions (insert_or_ignore_category db n k) = transactions db.
Proof. unfold insert_or_ignore_category. now destruct (_ || _). Qed.

Lemma seed_foreign_keys l : forall db,
  foreign_keys (seed l db) = foreign_keys db.
Proof.
  induction l as [|nk l IH]; intros db; simpl; [reflexivity|].
  unfold seed in IH. rewrite IH. apply ioi_foreign_keys.
Qed.

Lemma seed_transactions l : forall db,
  transactions (seed l db) = transactions db.
Proof.
  induction l as [|nk l IH]; intros db; simpl; [reflexivity|].
  unfold seed in IH. rewrite IH. apply ioi_transactions.
Qed.

Lemma create_defaults_seed (db : Database) :
  _create_defaults db = seed defaults db.
Proof. reflexivity. Qed.

(** A store opened by the constructor does not enforce foreign keys. *)
Lemma Database_new_foreign_keys (f : db_file) :
  foreign_keys (Database_new f) = false.
Proof.
  unfold Database_new, _init, _create_defaults.
  now rewrite seed_foreign_keys.
Qed.

Lemma name_taken_app n l c :
  name_taken n (l ++ [c]) = name_taken n l || (cat_name c =? n)%string.
Proof.
  unfold name_taken. rewrite existsb_app. simpl. now rewrite orb_false_r.
Qed.

Lemma ioi_rows_taken db n k :
  name_taken n (rows (categories db)) = true ->
  rows (categories (insert_or_ignore_category db n k))
  = rows (categories db).
Proof.
  intros H. unfold insert_or_ignore_category. rewrite H, orb_true_r.
  reflexivity.
Qed.

Lemma ioi_taken_mono db n k m :
  name_taken m (rows (categories db)) = true ->
  name_taken m (rows (categories (insert_or_ignore_category db n k))) = true.
Proof.
  intros H. unfold insert_or_ignore_category.
  destruct (_ || _); simpl; [assumption|].
  rewrite name_taken_app, H. reflexivity.
Qed.

Lemma ioi_taken db n k :
  kind_check k = true ->
  name_taken n (rows (categories (insert_or_ignore_category db n k))) = true.
Proof.
  intros Hk. unfold insert_or_ignore_category. rewrite Hk. simpl.
  destruct (name_taken n (rows (categories db))) eqn:E; simpl;
    [assumption|].
  rewrite name_taken_app. simpl. rewrite String.eqb_refl.
  apply orb_true_r.
Qed.

Lemma seed_taken_mono l : forall db m,
  name_taken m (rows (categories db)) = true ->
  name_taken m (rows (categories (seed l db))) = true.
Proof.
  induction l as [|nk l IH]; intros db m H; simpl; [assumption|].
  apply IH, ioi_taken_mono, H.
Qed.

Lemma seed_taken l : forall db nk,
  Forall (fun nk => kind_check (snd nk) = true) l ->
  In nk l ->
  name_taken (fst nk) (rows (categories (seed l db))) = true.
Proof.
  induction l as [|a l IH]; intros db nk Hk Hin; [contradiction|].
  inversion Hk as [|? ? Ha Hl]; subst. simpl.
  destruct Hin as [->|Hin].
  - apply seed_taken_mono, ioi_taken, Ha.
  - now apply IH.
Qed.

Lemma seed_rows_taken l : forall db,
  (forall nk, In nk l ->
     name_taken (fst nk) (rows (categories db)) = true) ->
  rows (categories (seed l db)) = rows (categories db).
Proof.
  induction l as [|a l IH]; intros db H; simpl; [reflexivity|].
  rewrite IH.
  - apply ioi_rows_taken, H. now left.
  - intros nk Hin. apply ioi_taken_mono, H. now right.
Qed.

(** The counter after a statement is at least every rowid in the table. *)
Lemma ioi_seq_bound db n k :
  max_rowid cat_id (rows (categories (insert_or_ignore_category db n k)))
  <= seq (categories (insert_or_ignore_category db n k)).
Proof.
  unfold insert_or_ignore_category, new_rowid.
  destruct (_ || _); cbn [with_categories categories rows seq]; [lia|].
  rewrite max_rowid_app. cbn [cat_id].
  pose proof (max_rowid_nonneg cat_id (rows (categories db))). lia.
Qed.

Lemma ioi_seq_taken db n k :
  name_taken n (rows (categories db)) = true ->
  max_rowid cat_id (rows (categories db)) <= seq (categories db) ->
  seq (categories (insert_or_ignore_category db n k))
  = seq (categories db) + 1.
Proof.
  intros H Hb. unfold insert_or_ignore_category, new_rowid.
  rewrite H, orb_true_r. cbn [with_categories categories rows seq]. lia.
Qed.

Lemma seed_seq_taken l : forall db,
  (forall nk, In nk l ->
     name_taken (fst nk) (rows (categories db)) = true) ->
  max_rowid cat_id (rows (categories db)) <= seq (categories db) ->
  seq (categories (seed l db))
  = seq (categories db) + Z.of_nat (List.length l).
Proof.
  induction l as [|a l IH]; intros db H Hb.
  - simpl. lia.
  - cbn [seed fold_left]. fold (seed l (insert_or_ignore_category db (fst a) (snd a))).
    assert (Ha : name_taken (fst a) (rows (categories db)) = true)
      by (apply H; now left).
    rewrite IH.
    + rewrite ioi_seq_taken by assumption.
      cbn [List.length]. lia.
    + intros nk Hin. apply ioi_taken_mono, H. now right.
    + rewrite ioi_rows_taken by assumption.
      rewrite ioi_seq_taken by assumption. lia.
Qed.

Lemma seed_seq_bound l : forall db,
  l <> [] ->
  max_rowid cat_id (rows (categories (seed l db)))
  <= seq (categories (seed l db)).
Proof.
  induction l as [|a l IH]; intros db Hne; [congruence|].
  cbn [seed fold_left].
  fold (seed l (insert_or_ignore_category db (fst a) (snd a))).
  destruct l as [|b l'].
  - simpl. apply ioi_seq_bound.
  - apply IH. discriminate.
Qed.

Lemma defaults_kinds :
  Forall (fun nk => kind_check (snd nk) = true) defaults.
Proof. repeat constructor. Qed.

Lemma name_taken_count n l :
  name_taken n l = negb (count_name n l =? 0)%nat.
Proof.
  unfold name_taken, count_name.
  induction l as [|c l IH]; simpl; [reflexivity|].
  destruct (cat_name c =? n)%string; simpl; [reflexivity|exact IH].
Qed.

Lemma ioi_count db n k m :
  kind_check k = true ->
  count_name m (rows (categories (insert_or_ignore_category db n k)))
  = if (n =? m)%string then Nat.max 1 (count_name m (rows (categories db)))
    else count_name m (rows (categories db)).
Proof.
  intros Hk. unfold insert_or_ignore_category. rewrite Hk.
  cbn [negb orb]. rewrite (name_taken_count n).
  destruct (String.eqb_spec n m) as [->|Hne].
  - destruct (count_name m (rows (categories db))) as [|c] eqn:E;
      cbn [Nat.eqb negb with_categories categories rows].
    + unfold count_name in *. rewrite filter_app, length_app, E.
      simpl. rewrite String.eqb_refl. reflexivity.
    + rewrite E. reflexivity.
  - destruct (negb _); cbn [with_categories categories rows];
      [reflexivity|].
    unfold count_name. rewrite filter_app, length_app. simpl.
    apply String.eqb_neq in Hne. rewrite Hne. simpl. lia.
Qed.

Lemma seed_count l : forall db m,
  NoDup (map fst l) ->
  Forall (fun nk => kind_check (snd nk) = true) l ->
  count_name m (rows (categories (seed l db)))
  = if existsb (fun nk => (fst nk =? m)%string) l
    then Nat.max 1 (count_name m (rows (categories db)))
    else count_name m (rows (categories db)).
Proof.
  induction l as [|a l IH]; intros db m Hnd Hk; [reflexivity|].
  inversion Hnd as [|? ? Hnotin Hnd']; subst.
  inversion Hk as [|? ? Ha Hk']; subst.
  cbn [seed fold_left existsb].
  fold (seed l (insert_or_ignore_category db (fst a) (snd a))).
  rewrite IH by assumption. rewrite ioi_count by assumption.
  destruct (String.eqb_spec (fst a) m) as [E|Hne]; cbn [orb].
  - subst m.
    replace (existsb (fun nk => (fst nk =? fst a)%string) l) with false.
    + reflexivity.
    + symmetry. apply not_true_is_false. intros H.
      apply existsb_exists in H. destruct H as [nk [Hin He]].
      apply String.eqb_eq in He. apply Hnotin. rewrite <- He.
      now apply in_map.
  - reflexivity.
Qed.

Lemma defaults_distinct : NoDup (map fst defaults).
Proof.
  repeat constructor; simpl; intuition discriminate.
Qed.

(** C8, the statement as the specification has it, fails: a second run of
    the constructor leaves a different state, since the seven ignored
    inserts still move the AUTOINCREMENT counter of [categories]. *)
Lemma init_twice_moves_counter :
  Database_new (commit (Database_new empty_file))
  <> Database_new empty_file.
Proof.
  intros H.
  apply (f_equal (fun db => seq (categories db))) in H.
  vm_compute in H. discriminate.
Qed.

(** Seeding a second time, for any list of distinct names with valid
    kinds. *)
Lemma seed_twice (l : list (string * string)) (db0 : Database) :
  Forall (fun nk => kind_check (snd nk) = true) l ->
  NoDup (map fst l) ->
  l <> [] ->
  let once := seed l db0 in
  let twice :=
    seed l {| foreign_keys := false; categories := categories once;
              transactions := transactions once |} in
  rows (categories twice) = rows (categories once)
  /\ transactions twice = transactions once
  /\ seq (categories twice)
     = seq (categories once) + Z.of_nat (List.length l)
  /\ Forall (fun nk =>
               count_name (fst nk) (rows (categories once))
               = Nat.max 1 (count_name (fst nk) (rows (categories db0)))) l.
Proof.
  intros Hk Hnd Hne once twice.
  set (db1 := {| foreign_keys := false; categories := categories once;
                 transactions := transactions once |}).
  assert (Htaken : forall nk, In nk l ->
            name_taken (fst nk) (rows (categories db1)) = true).
  { intros nk Hin. exact (seed_taken l db0 nk Hk Hin). }
  split; [|split; [|split]].
  - exact (seed_rows_taken l db1 Htaken).
  - exact (seed_transactions l db1).
  - apply (seed_seq_taken l db1 Htaken).
    exact (seed_seq_bound l db0 Hne).
  - apply Forall_forall. intros nk Hin. unfold once.
    rewrite (seed_count l db0 (fst nk) Hnd Hk).
    replace (existsb (fun nk0 => (fst nk0 =? fst nk)%string) l)
      with true; [reflexivity|].
    symmetry. apply existsb_exists. exists nk. split; [assumption|].
    apply String.eqb_refl.
Qed.

Lemma defaults_nonempty : defaults <> [].
Proof. discriminate. Qed.

(** C8, amended: running schema initialisation and default seeding a
    second time leaves the rows of [categories] and the whole of
    [transactions] as the first run left them; only the rowid counter of
    [categories] advances, by seven.  After the first run each default
    name is present, once unless the file already held it several
    times. *)
Theorem init_twice_same_rows (f : db_file) :
  let before := rows (create_table_if_not_exists (file_categories f)) in
  let once := Database_new f in
  let twice := Database_new (commit once) in
  rows (categories twice) = rows (categories once)
  /\ transactions twice = transactions once
  /\ seq (categories twice) = seq (categories once) + 7
  /\ Forall (fun nk =>
               count_name (fst nk) (rows (categories once))
               = Nat.max 1 (count_name (fst nk) before)) defaults.
Proof.
  exact (seed_twice defaults
           {| foreign_keys := false;
              categories := create_table_if_not_exists (file_categories f);
              transactions :=
                create_table_if_not_exists (file_transactions f) |}
           defaults_kinds defaults_distinct defaults_nonempty).
Qed.

(** From an empty file the constructor leaves the seven defaults, four
    of kind expense and three of kind income, and a second run changes
    none of them. *)
Lemma init_empty_file :
  map (fun c => (cat_id c, cat_kind c))
    (rows (categories (Database_new empty_file)))
  = [(1, "expense"); (2, "expense"); (3, "expense"); (4, "expense");
     (5, "income"); (6, "income"); (7, "income")]
  /\ map cat_name (rows (categories (Database_new empty_file)))
     = map fst defaults.
Proof. split; vm_compute; reflexivity. Qed.

(** ** Categories *)

Lemma name_taken_In n l c :
  In c l -> cat_name c = n -> name_taken n l = true.
Proof.
  intros Hin Hn. apply existsb_exists. exists c. split; [assumption|].
  now apply String.eqb_eq.
Qed.

(** C6: when a category named [n] exists, [add_cat n k] raises
    [sqlite3.IntegrityError] for every [k] (on the UNIQUE constraint of
    [name] when [k] is a kind, on the CHECK of [kind] otherwise), and the
    store is left as it was. *)
Theorem add_cat_duplicate_name (db : Database) (n k : string)
  (c : category) :
  In c (rows (categories db)) ->
  cat_name c = n ->
  add_cat db n k
  = Raise (if kind_check k then unique_failed else check_failed)
  /\ store_after db (add_cat db n k) = db.
Proof.
  intros Hin Hn. unfold add_cat.
  rewrite (name_taken_In n _ c Hin Hn).
  destruct (kind_check k); simpl; split; reflexivity.
Qed.

Lemma add_cat_duplicate_name_witness :
  add_cat (Database_new empty_file) "Транспорт" "income"
  = Raise unique_failed
  /\ store_after (Database_new empty_file)
       (add_cat (Database_new empty_file) "Транспорт" "income")
     = Database_new empty_file.
Proof.
  apply (add_cat_duplicate_name (Database_new empty_file) "Транспорт"
           "income"
           {| cat_id := 3; cat_name := "Транспорт"; cat_kind := "expense" |}).
  - vm_compute. right. right. left. reflexivity.
  - reflexivity.
Defined.

(** A new name is stored under a fresh id. *)
Lemma add_cat_new_name (db : Database) (n k : string) :
  kind_check k = true ->
  name_taken n (rows (categories db)) = false ->
  exists db',
    add_cat db n k = Ok db'
    /\ rows (categories db')
       = rows (categories db)
         ++ [{| cat_id := new_rowid cat_id (categories db);
                cat_name := n; cat_kind := k |}]
    /\ has_category (new_rowid cat_id (categories db))
         (rows (categories db)) = false.
Proof.
  intros Hk Hn. unfold add_cat. rewrite Hk, Hn. simpl.
  eexists. split; [reflexivity|]. split; [reflexivity|].
  unfold has_category.
  destruct (existsb _ _) eqn:E; [|reflexivity].
  apply existsb_exists in E. destruct E as [c [Hin He]].
  apply Z.eqb_eq in He.
  exfalso. exact (new_rowid_fresh cat_id (categories db) c Hin He).
Qed.

(** C7, the statement as the specification has it, fails: an update that
    names an id the store does not hold returns normally. *)
Lemma edit_absent_id_succeeds :
  edit_cat (Database_new empty_file) 999 "Name" "expense"
  = Ok (Database_new empty_file)
  /\ edit_tx (Database_new empty_file) 999 "2024-01-01" "expense"
       (Num.DFin 1 0) None None
     = Ok (Database_new empty_file).
Proof. split; vm_compute; reflexivity. Qed.

(** C7, amended: [edit_cat] and [edit_tx] on an id the store does not
    hold raise nothing and leave the store as it was (the UPDATE matches
    no row); the one exception is an amount that [float] refuses, a
    signaling NaN. *)
Theorem edit_absent_id_no_op (db : Database) (cid tid : Z)
  (name kind dt tkind : string) (amount : Num.decimal)
  (cat : option Z) (desc : option string) :
  has_category cid (rows (categories db)) = false ->
  has_transaction tid (rows (transactions db)) = false ->
  amount <> Num.DNaN true ->
  edit_cat db cid name kind = Ok db
  /\ edit_tx db tid dt tkind amount cat desc = Ok db.
Proof.
  intros Hc Ht Ha. unfold edit_cat, edit_tx. rewrite Hc. split;
    [reflexivity|].
  destruct amount as [c e|neg|[|]]; simpl; try rewrite Ht;
    try reflexivity.
  now contradiction Ha.
Qed.

Lemma edit_absent_id_no_op_witness :
  edit_cat (Database_new empty_file) 8 "Name" "bogus"
  = Ok (Database_new empty_file)
  /\ edit_tx (Database_new empty_file) 1 "2024-01-01" "bogus"
       (Num.DFin (-5) 0) (Some 42) None
     = Ok (Database_new empty_file).
Proof.
  apply edit_absent_id_no_op.
  - vm_compute. reflexivity.
  - vm_compute. reflexivity.
  - discriminate.
Defined.

(** On an id the store holds, [edit_cat] rewrites that row alone. *)
Lemma edit_cat_present (db : Database) (cid : Z) (name kind : string) :
  has_category cid (rows (categories db)) = true ->
  kind_check kind = true ->
  existsb (fun c => (cat_name c =? name)%string && negb (cat_id c =? cid))
    (rows (categories db)) = false ->
  exists db',
    edit_cat db cid name kind = Ok db'
    /\ transactions db' = transactions db
    /\ map cat_id (rows (categories db')) = map cat_id (rows (categories db)).
Proof.
  intros Hc Hk Hu. unfold edit_cat. rewrite Hc, Hk, Hu. simpl.
  eexists. split; [reflexivity|]. split; [reflexivity|].
  simpl. rewrite map_map. apply map_ext_in. intros c _.
  destruct (Z.eqb_spec (cat_id c) cid); simpl; congruence.
Qed.

(** ** Numbers *)

(** Rounding a non-negative quotient never yields a NaN. *)
Lemma shr_1_nonneg mrs : 0 <= shr_m mrs -> 0 <= shr_m (shr_1 mrs).
Proof.
  destruct mrs as [m r s]. simpl.
  destruct m as [|[p|p|]|[p|p|]]; simpl; lia.
Qed.

Lemma iter_pos_shr_1_nonneg n : forall mrs,
  0 <= shr_m mrs -> 0 <= shr_m (iter_pos shr_1 n mrs).
Proof.
  induction n as [n IH|n IH|]; intros mrs H; simpl.
  - apply IH, IH, shr_1_nonneg, H.
  - apply IH, IH, H.
  - apply shr_1_nonneg, H.
Qed.

Lemma shr_record_of_loc_m m l : shr_m (shr_record_of_loc m l) = m.
Proof. destruct l as [|[| |]]; reflexivity. Qed.

Lemma shr_fexp_nonneg m e l :
  0 <= m -> 0 <= shr_m (fst (shr_fexp Num.prec Num.emax m e l)).
Proof.
  intros H. unfold shr_fexp, shr.
  destruct (Z.sub _ _) as [|p|p]; simpl;
    try (rewrite shr_record_of_loc_m; exact H).
  apply iter_pos_shr_1_nonneg. rewrite shr_record_of_loc_m. exact H.
Qed.

Lemma round_nearest_even_nonneg m l :
  0 <= m -> 0 <= round_nearest_even m l.
Proof.
  intros H. unfold round_nearest_even.
  destruct l as [|[| |]]; try destruct (Z.even m); lia.
Qed.

Lemma binary_round_aux_not_nan s m e l :
  0 <= m ->
  Num.is_nan (binary_round_aux Num.prec Num.emax s m e l) = false.
Proof.
  intros H. unfold binary_round_aux.
  pose proof (shr_fexp_nonneg m e l H) as H1.
  destruct (shr_fexp Num.prec Num.emax m e l) as [mrs' e'].
  simpl in H1.
  pose proof (shr_fexp_nonneg _ e' loc_Exact
                (round_nearest_even_nonneg (shr_m mrs')
                   (loc_of_shr_record mrs') H1)) as H2.
  destruct (shr_fexp Num.prec Num.emax
              (round_nearest_even (shr_m mrs') (loc_of_shr_record mrs'))
              e' loc_Exact) as [mrs'' e''].
  simpl in H2.
  destruct (shr_m mrs'') as [|p|p]; [reflexivity| |lia].
  destruct (Z.leb _ _); reflexivity.
Qed.

Lemma float_of_ratio_not_nan s n d :
  Num.is_nan (Num.float_of_ratio s n d) = false.
Proof.
  unfold Num.float_of_ratio, SFdiv_core_binary.
  set (e' := Z.min _ _). set (m' := match _ with Z0 => _ | _ => _ end).
  assert (Hm : 0 <= m').
  { unfold m'. destruct (0 - 0 - e') as [|p|p]; try lia.
    rewrite Z.shiftl_mul_pow2 by lia.
    apply Z.mul_nonneg_nonneg; [lia|]. apply Z.pow_nonneg. lia. }
  pose proof (Z_div_mod m' (Zpos d) ltac:(lia)) as Hd.
  destruct (Z.div_eucl m' (Zpos d)) as [q r].
  apply binary_round_aux_not_nan. nia.
Qed.

(** [float] of a finite decimal is a number. *)
Lemma float_of_decimal_finite c e :
  exists x, Num.float_of_decimal (Num.DFin c e) = Ok x
            /\ Num.is_nan x = false.
Proof.
  unfold Num.float_of_decimal.
  destruct c as [|p|p]; eexists; (split; [reflexivity|]);
    try reflexivity;
    destruct (0 <=? e); apply float_of_ratio_not_nan.
Qed.

Lemma real_column_not_nan (x : Num.float) :
  Num.is_nan (Num.real_column x) = Num.is_nan x.
Proof. destruct x; reflexivity. Qed.

Lemma binary_round_aux_positive m e l :
  Num.real_column (binary_round_aux Num.prec Num.emax false m e l)
  = binary_round_aux Num.prec Num.emax false m e l.
Proof.
  unfold binary_round_aux.
  destruct (shr_fexp Num.prec Num.emax m e l) as [mrs' e'].
  destruct (shr_fexp Num.prec Num.emax
              (round_nearest_even (shr_m mrs') (loc_of_shr_record mrs'))
              e' loc_Exact) as [mrs'' e''].
  destruct (shr_m mrs'') as [|p|p]; [reflexivity| |reflexivity].
  destruct (Z.leb _ _); reflexivity.
Qed.

Lemma float_of_ratio_positive n d :
  Num.real_column (Num.float_of_ratio false n d)
  = Num.float_of_ratio false n d.
Proof.
  unfold Num.float_of_ratio.
  destruct (SFdiv_core_binary Num.prec Num.emax (Z.pos n) 0 (Z.pos d) 0)
    as [[q e] l].
  apply binary_round_aux_positive.
Qed.

(** A positive amount is stored as [float] gives it. *)
Lemma float_of_decimal_positive c e x :
  0 < c -> Num.float_of_decimal (Num.DFin c e) = Ok x ->
  Num.real_column x = x.
Proof.
  intros Hc. unfold Num.float_of_decimal.
  destruct c as [|p|p]; try lia.
  intros H. injection H as <-.
  destruct (0 <=? e); apply float_of_ratio_positive.
Qed.

(** ** Transactions *)

Lemma find_app_fresh {A : Type} (p : A -> bool) (l : list A) (x : A) :
  (forall y, In y l -> p y = false) -> p x = true ->
  find p (l ++ [x]) = Some x.
Proof.
  intros Hl Hx. induction l as [|a l IH]; simpl.
  - now rewrite Hx.
  - rewrite (Hl a (or_introl eq_refl)). apply IH.
    intros y Hy. apply Hl. now right.
Qed.

(** C9, the statement as the specification has it, fails: the amount
    read back after [add_tx] is a binary64 number, and for the decimal
    0.1 it is not the value supplied. *)
Lemma add_tx_amount_not_exact :
  exists db t x,
    add_tx (Database_new empty_file) "2024-01-05 12:00:00" "2024-01-05"
      "expense" (Num.DFin 1 (-1)) (Some 1) (Some "tea") = Ok db
    /\ get_transaction db 1 = Some t
    /\ Num.float_value (tx_amount t) = Some x
    /\ ~ (x == 1 # 10)%Q.
Proof.
  eexists. eexists. eexists.
  split; [vm_compute; reflexivity|].
  split; [vm_compute; reflexivity|].
  split; [vm_compute; reflexivity|].
  intros H. vm_compute in H. discriminate.
Qed.

(** C9, amended: for a valid kind, a positive finite decimal amount and
    a category reference the connection accepts, [add_tx] stores a row
    under a fresh id, and reading that id back gives the date, kind,
    category and description that were supplied, the clock reading as
    [created_at], and as amount the binary64 number nearest to the
    decimal supplied. *)
Theorem add_tx_get_transaction (db : Database) (now dt kind : string)
  (c e : Z) (cat : option Z) (desc : option string) :
  kind_check kind = true ->
  0 < c ->
  reference_ok db cat = true ->
  exists db' x,
    add_tx db now dt kind (Num.DFin c e) cat desc = Ok db'
    /\ Num.float_of_decimal (Num.DFin c e) = Ok x
    /\ get_transaction db' (new_rowid tx_id (transactions db))
       = Some {| tx_id := new_rowid tx_id (transactions db);
                 tx_dt := dt; tx_kind := kind; tx_amount := x;
                 tx_category_id := cat; tx_description := desc;
                 tx_created_at := now |}
    /\ has_transaction (new_rowid tx_id (transactions db))
         (rows (transactions db)) = false
    /\ categories db' = categories db.
Proof.
  intros Hk Hc Hr.
  destruct (float_of_decimal_finite c e) as [x [Hx Hnan]].
  assert (Hfresh : forall t, In t (rows (transactions db)) ->
            (tx_id t =? new_rowid tx_id (transactions db)) = false).
  { intros t Hin. apply Z.eqb_neq.
    exact (new_rowid_fresh tx_id (transactions db) t Hin). }
  unfold add_tx. rewrite Hx. cbn [bind]. rewrite Hnan, Hk, Hr.
  rewrite (float_of_decimal_positive c e x Hc Hx).
  cbn [negb]. eexists. exists x.
  split; [reflexivity|]. split; [reflexivity|].
  split; [|split; [|reflexivity]].
  - unfold get_transaction, with_transactions. cbn [transactions rows].
    apply find_app_fresh; [exact Hfresh|]. cbn [tx_id]. apply Z.eqb_refl.
  - unfold has_transaction.
    destruct (existsb _ _) eqn:E; [|reflexivity].
    apply existsb_exists in E. destruct E as [t [Hin He]].
    rewrite (Hfresh t Hin) in He. discriminate.
Qed.

Lemma add_tx_get_transaction_witness :
  exists db' x,
    add_tx (Database_new empty_file) "2024-01-05 12:00:00" "2024-01-05"
      "income" (Num.DFin 1250 (-2)) (Some 5) (Some "pay") = Ok db'
    /\ Num.float_of_decimal (Num.DFin 1250 (-2)) = Ok x
    /\ get_transaction db'
         (new_rowid tx_id (transactions (Database_new empty_file)))
       = Some {| tx_id :=
                   new_rowid tx_id (transactions (Database_new empty_file));
                 tx_dt := "2024-01-05"; tx_kind := "income";
                 tx_amount := x; tx_category_id := Some 5;
                 tx_description := Some "pay";
                 tx_created_at := "2024-01-05 12:00:00" |}
    /\ has_transaction
         (new_rowid tx_id (transactions (Database_new empty_file)))
         (rows (transactions (Database_new empty_file))) = false
    /\ categories db' = categories (Database_new empty_file).
Proof.
  apply add_tx_get_transaction.
  - reflexivity.
  - reflexivity.
  - vm_compute. reflexivity.
Defined.

(** Amounts that binary64 holds exactly come back as supplied. *)
Lemma add_tx_amount_exact_example :
  exists db t x,
    add_tx (Database_new empty_file) "2024-01-05 12:00:00" "2024-01-05"
      "income" (Num.DFin 1250 (-2)) None None = Ok db
    /\ get_transaction db 1 = Some t
    /\ Num.float_value (tx_amount t) = Some x
    /\ (x == 25 # 2)%Q.
Proof.
  eexists. eexists. eexists.
  split; [vm_compute; reflexivity|].
  split; [vm_compute; reflexivity|].
  split; vm_compute; reflexivity.
Qed.

(** ** Deleting a category *)

Lemma del_cat_removes (db : Database) (cid : Z) :
  has_category cid (rows (categories (del_cat db cid))) = false.
Proof.
  unfold del_cat, has_category. cbn [categories rows].
  induction (rows (categories db)) as [|c l IH]; simpl; [reflexivity|].
  destruct (Z.eqb_spec (cat_id c) cid) as [E|E]; simpl; [exact IH|].
  apply Z.eqb_neq in E. rewrite E. exact IH.
Qed.

Lemma del_cat_keeps_others (db : Database) (cid : Z) (c : category) :
  In c (rows (categories db)) -> cat_id c <> cid ->
  In c (rows (categories (del_cat db cid))).
Proof.
  intros Hin Hne. unfold del_cat. cbn [categories rows].
  apply filter_In. split; [assumption|].
  apply Z.eqb_neq in Hne. now rewrite Hne.
Qed.

(** On a connection that enforces foreign keys, the references to the
    deleted category are cleared and nothing else changes. *)
Lemma del_cat_enforced (db : Database) (cid : Z) :
  foreign_keys db = true ->
  has_category cid (rows (categories db)) = true ->
  rows (transactions (del_cat db cid))
  = map (set_null cid) (rows (transactions db)).
Proof.
  intros Hfk Hc. unfold del_cat. cbn [transactions].
  rewrite Hfk, Hc. reflexivity.
Qed.

Lemma set_null_fields (cid : Z) (t : transaction) :
  tx_id (set_null cid t) = tx_id t
  /\ tx_dt (set_null cid t) = tx_dt t
  /\ tx_kind (set_null cid t) = tx_kind t
  /\ tx_amount (set_null cid t) = tx_amount t
  /\ tx_description (set_null cid t) = tx_description t
  /\ tx_created_at (set_null cid t) = tx_created_at t
  /\ tx_category_id (set_null cid t)
     = if match tx_category_id t with
          | Some i => i =? cid
          | None => false
          end
       then None else tx_category_id t.
Proof.
  unfold set_null. destruct (tx_category_id t) as [i|] eqn:E.
  - destruct (i =? cid); simpl; rewrite ?E; repeat split; reflexivity.
  - rewrite E. repeat split; reflexivity.
Qed.

(** On the connection the constructor opens, which does not enforce
    them, [del_cat] leaves every transaction as it was. *)
Lemma del_cat_unenforced (db : Database) (cid : Z) :
  foreign_keys db = false ->
  transactions (del_cat db cid) = transactions db.
Proof.
  intros Hfk. unfold del_cat. cbn [transactions]. rewrite Hfk.
  reflexivity.
Qed.

(** C1, at the failing input: the store is opened on an empty file, a
    transaction is added under category 1, and category 1 is deleted.
    The category is gone and the transaction is kept with all its fields,
    but its category reference still holds the id 1 instead of NULL. *)
Theorem del_cat_leaves_reference :
  exists db t,
    add_tx (Database_new empty_file) "2024-01-05 12:00:00" "2024-01-05"
      "expense" (Num.DFin 1250 (-2)) (Some 1) (Some "lunch") = Ok db
    /\ has_category 1 (rows (categories db)) = true
    /\ get_transaction db 1 = Some t
    /\ tx_category_id t = Some 1
    /\ has_category 1 (rows (categories (del_cat db 1))) = false
    /\ get_transaction (del_cat db 1) 1 = Some t.
Proof.
  eexists. eexists.
  split; [vm_compute; reflexivity|].
  split; [vm_compute; reflexivity|].
  split; [vm_compute; reflexivity|].
  split; [reflexivity|].
  split; vm_compute; reflexivity.
Qed.

(** ** Entering a transaction *)

Lemma to_iso_raises_value_error (qd : QDate) (e : exn) :
  to_iso qd = Raise e -> exists msg, e = ValueError msg.
Proof.
  unfold to_iso.
  destruct (_ || _); [intros H; inversion H; eauto|].
  destruct (_ || _); [intros H; inversion H; eauto|].
  destruct (_ || _); [intros H; inversion H; eauto|].
  discriminate.
Qed.

Lemma get_info_bad_amount
  (Decimal : string -> option Num.decimal) (strip : string -> string)
  (w : EditTransactionWindow) :
  Decimal (replace_comma (strip (dlg_amount w))) = None
  \/ (exists d, Decimal (replace_comma (strip (dlg_amount w))) = Some d
                /\ Num.dec_le0 d <> Ok false) ->
  exists e,
    get_info Decimal strip w = Raise e
    /\ ((exists msg, e = ValueError msg)
        \/ (e = InvalidOperation
            /\ exists s, Decimal (replace_comma (strip (dlg_amount w)))
                         = Some (Num.DNaN s))).
Proof.
  intros H. unfold get_info.
  destruct (to_iso (dlg_date w)) as [dt|e] eqn:Hd.
  - cbn [bind]. destruct H as [H|[d [H Hle]]]; rewrite H; cbn [bind].
    + eexists. split; [reflexivity|]. left. eexists. reflexivity.
    + destruct d as [c x|neg|s]; cbn [Num.dec_le0 bind] in *.
      * destruct (c <=? 0); [|congruence].
        eexists. split; [reflexivity|]. left. eexists. reflexivity.
      * destruct neg; [|congruence].
        eexists. split; [reflexivity|]. left. eexists. reflexivity.
      * eexists. split; [reflexivity|]. right.
        split; [reflexivity|]. now exists s.
  - destruct (to_iso_raises_value_error _ _ Hd) as [msg ->].
    cbn [bind]. eexists. split; [reflexivity|]. left. now exists msg.
Qed.




(** Every other amount is accepted: with a valid date and an amount
    read as a value above zero, finite or infinite, [get_info]
    returns. *)
Lemma get_info_accepts
  (Decimal : string -> option Num.decimal) (strip : string -> string)
  (w : EditTransactionWindow) (dt : string) (d : Num.decimal) :
  to_iso (dlg_date w) = Ok dt ->
  Decimal (replace_comma (strip (dlg_amount w))) = Some d ->
  Num.dec_le0 d = Ok false ->
  get_info Decimal strip w
  = Ok (dt, dlg_type w, d, dlg_cat w, strip (dlg_desc w)).
Proof.
  intros Hd Ha Hle. unfold get_info. rewrite Hd, Ha. cbn [bind].
  rewrite Hle. reflexivity.
Qed.

(** With a valid date the two failures are told apart by their
    messages, and a positive amount goes through to the store. *)
Lemma get_info_messages :
  get_info ascii_Decimal ascii_strip (sample_dialog "12 rub")
  = Raise bad_format
  /\ get_info ascii_Decimal ascii_strip (sample_dialog "0")
     = Raise not_positive
  /\ get_info ascii_Decimal ascii_strip (sample_dialog " 12,50 ")
     = Ok ("2024-01-05", "expense", Num.DFin 1250 (-2), Some 1, "lunch").
Proof. repeat split; vm_compute; reflexivity. Qed.

(** ** The running balance *)

(** C2, at the failing input: with an income of 0.1 and an income of 0.2
    on the same day, the day's delta is the binary sum SQLite's [SUM]
    forms over the stored REAL values, so [get_balance] reports
    0.30000000000000004, while the exact decimal sum 0.3 is the float
    one unit in the last place below. *)
Theorem get_balance_day_sum_is_binary :
  (db <- two_tenths ;; get_balance db None None)
  = Ok [("2024-01-01", S754_finite false 5404319552844596 (-54))]
  /\ (d <- Num.dec_add (Num.DFin 1 (-1)) (Num.DFin 2 (-1)) ;;
      Num.float_of_decimal d)
     = Ok (S754_finite false 5404319552844595 (-54))
  /\ Num.dec_add (Num.DFin 1 (-1)) (Num.DFin 2 (-1)) = Ok (Num.DFin 3 (-1))
  /\ Num.feqb (S754_finite false 5404319552844595 (-54))
       (S754_finite false 5404319552844596 (-54)) = false.
Proof. repeat split; vm_compute; reflexivity. Qed.

(** On the ledger of the specification the balance is 70 and then 90. *)
Lemma get_balance_three_entries :
  exists x y,
    (db <- three_entries ;; get_balance db None None)
    = Ok [("2024-01-01", x); ("2024-01-02", y)]
    /\ Num.float_of_decimal (Num.DFin 7000 (-2)) = Ok x
    /\ Num.float_of_decimal (Num.DFin 9000 (-2)) = Ok y.
Proof.
  exists (S754_finite false 4925812092436480 (-46)).
  exists (S754_finite false 6333186975989760 (-46)).
  repeat split; vm_compute; reflexivity.
Qed.

(** ** Searching by text *)

(** C10: the search text is spliced into a LIKE pattern, so [_] and [%]
    in it are wildcards.  The store holds one transaction, described as
    "taxi home" under the category "Транспорт"; the texts "t_x" and
    "ta%me" both find it, though neither occurs in its description or
    in its category name. *)
Theorem find_tx_text_wildcards :
  exists r,
    (db <- taxi_ride ;; find_tx db None None None None (Some "t_x"))
    = Ok [r]
    /\ (db <- taxi_ride ;; find_tx db None None None None (Some "ta%me"))
       = Ok [r]
    /\ tx_description (row_tx r) = Some "taxi home"
    /\ category_name r = Some "Транспорт"
    /\ occurs_in "t_x" (tx_description (row_tx r)) = false
    /\ occurs_in "t_x" (category_name r) = false
    /\ occurs_in "ta%me" (tx_description (row_tx r)) = false
    /\ occurs_in "ta%me" (category_name r) = false.
Proof.
  eexists.
  split; [vm_compute; reflexivity|].
  repeat split; vm_compute; reflexivity.
Qed.

(** *** ORDER BY *)

Section Sorting.

Context {A : Type} (leb : A -> A -> bool).

Lemma insert_sorted_perm (x : A) (l : list A) :
  Permutation (x :: l) (insert_sorted leb x l).
Proof.
  induction l as [|y l IH]; simpl; [reflexivity|].
  destruct (leb x y); [reflexivity|].
  rewrite perm_swap. constructor. exact IH.
Qed.

Lemma order_by_perm (l : list A) : Permutation l (order_by leb l).
Proof.
  unfold order_by. induction l as [|x l IH]; simpl; [constructor|].
  rewrite <- insert_sorted_perm. constructor. exact IH.
Qed.

Hypothesis leb_total : forall a b, leb a b = true \/ leb b a = true.

Lemma insert_sorted_hd (x y : A) (l : list A) :
  leb y x = true -> HdRel (fun a b => leb a b = true) y l ->
  HdRel (fun a b => leb a b = true) y (insert_sorted leb x l).
Proof.
  intros Hyx Hl. destruct l as [|z l]; simpl.
  - constructor. exact Hyx.
  - destruct (leb x z); constructor; [exact Hyx|].
    inversion Hl; assumption.
Qed.

Lemma insert_sorted_sorted (x : A) (l : list A) :
  Sorted (fun a b => leb a b = true) l ->
  Sorted (fun a b => leb a b = true) (insert_sorted leb x l).
Proof.
  induction 1 as [|y l Hs IH Hd]; simpl.
  - repeat constructor.
  - destruct (leb x y) eqn:E.
    + constructor; [constructor; assumption|]. constructor. exact E.
    + constructor; [exact IH|].
      apply insert_sorted_hd; [|exact Hd].
      destruct (leb_total x y) as [H|H]; [congruence|exact H].
Qed.

Lemma order_by_sorted (l : list A) :
  Sorted (fun a b => leb a b = true) (order_by leb l).
Proof.
  unfold order_by. induction l as [|x l IH]; simpl; [constructor|].
  apply insert_sorted_sorted. exact IH.
Qed.

(** A sort key without ties leaves one admissible result. *)
Lemma order_by_is_sql_order_by (l : list A) :
  sql_order_by leb l (order_by leb l).
Proof. split; [apply order_by_perm|apply order_by_sorted]. Qed.

End Sorting.

Lemma Sorted_impl {A : Type} (R S : A -> A -> Prop) (l : list A) :
  (forall a b, R a b -> S a b) -> Sorted R l -> Sorted S l.
Proof.
  intros H. induction 1 as [|x l Hs IH Hd]; constructor; [exact IH|].
  destruct Hd; constructor; auto.
Qed.

Lemma tx_order_total (a b : tx_row) :
  tx_order a b = true \/ tx_order b a = true.
Proof.
  unfold tx_order.
  rewrite (String.compare_antisym (tx_dt (row_tx b)) (tx_dt (row_tx a))).
  destruct (String.compare (tx_dt (row_tx a)) (tx_dt (row_tx b)));
    simpl; auto.
  destruct (Z.leb_spec (tx_id (row_tx b)) (tx_id (row_tx a))); auto.
  right. apply Z.leb_le. lia.
Qed.

Lemma tx_order_newest_first (a b : tx_row) :
  tx_order a b = true -> Spec.newest_first a b.
Proof.
  unfold tx_order, Spec.newest_first, String.ltb.
  rewrite (String.compare_antisym (tx_dt (row_tx a)) (tx_dt (row_tx b))).
  destruct (String.compare (tx_dt (row_tx b)) (tx_dt (row_tx a))) eqn:E;
    simpl; intros H.
  - right. split; [|apply Z.leb_le; exact H].
    symmetry. apply String.compare_eq_iff. exact E.
  - left. reflexivity.
  - discriminate.
Qed.

(** *** LIKE *)

Lemma bytes_app (a b : string) :
  Text.bytes (a ++ b) = (Text.bytes a ++ Text.bytes b)%list.
Proof.
  unfold Text.bytes. induction a as [|c a IH]; simpl; [reflexivity|].
  f_equal. exact IH.
Qed.

Lemma utf8_decode_percent_end (bs : list N) : forall cur,
  Text.utf8_decode cur (bs ++ [Text.percent])
  = (Text.utf8_decode cur bs ++ [Text.percent])%list.
Proof.
  induction bs as [|b bs IH]; intros cur.
  - destruct cur; reflexivity.
  - simpl. destruct cur as [c|].
    + destruct (Text.is_continuation b); [apply IH|].
      simpl. f_equal. destruct (b <? 192)%N; simpl; rewrite IH; reflexivity.
    + destruct (b <? 192)%N; simpl; rewrite IH; reflexivity.
Qed.

Lemma chars_pattern (s : string) :
  Text.chars ("%" ++ s ++ "%")
  = Text.percent :: (Text.chars s ++ [Text.percent])%list.
Proof.
  unfold Text.chars. rewrite bytes_app, bytes_app.
  change (Text.bytes "%") with [Text.percent].
  change ([Text.percent] ++ Text.bytes s ++ [Text.percent])%list
    with (Text.percent :: (Text.bytes s ++ [Text.percent]))%list.
  change (Text.utf8_decode None
            (Text.percent :: (Text.bytes s ++ [Text.percent]))%list)
    with (Text.percent
          :: Text.utf8_decode None (Text.bytes s ++ [Text.percent])%list).
  rewrite utf8_decode_percent_end. reflexivity.
Qed.

(** Apart from [_], a pattern character matches exactly the characters
    equal to it after ASCII case folding. *)
Lemma like_char_same_letter (c c2 : N) :
  c <> Text.underscore ->
  Text.like_char c c2 = Spec.same_letter c c2.
Proof.
  intros Hc. unfold Text.like_char, Spec.same_letter, Text.tolower,
    Text.underscore in *.
  destruct (N.eqb_spec c 95) as [E|_]; [contradiction|].
  rewrite orb_false_r.
  destruct (N.leb_spec 65 c), (N.leb_spec c 90),
    (N.leb_spec 65 c2), (N.leb_spec c2 90); simpl;
  destruct (N.ltb_spec c 128), (N.ltb_spec c2 128); simpl;
  repeat match goal with
         | |- context [(?a =? ?b)%N] => destruct (N.eqb_spec a b)
         end; simpl; try reflexivity; lia.
Qed.

Lemma like_chars_percent (p s : list N) :
  Text.like_chars (Text.percent :: p) s
  = Text.like_chars p s
    || match s with
       | [] => false
       | _ :: s' => Text.like_chars (Text.percent :: p) s'
       end.
Proof. destruct s; reflexivity. Qed.

Lemma like_chars_cons (c : N) (p s : list N) :
  c <> Text.percent ->
  Text.like_chars (c :: p) s
  = match s with
    | [] => false
    | c2 :: s' => Text.like_char c c2 && Text.like_chars p s'
    end.
Proof.
  intros H. apply N.eqb_neq in H. simpl. rewrite H. reflexivity.
Qed.

Lemma like_chars_any (s : list N) :
  Text.like_chars [Text.percent] s = true.
Proof.
  induction s as [|c s IH]; rewrite like_chars_percent; [reflexivity|].
  rewrite IH. apply orb_true_r.
Qed.

Lemma like_chars_prefix (t : list N) :
  plain_chars t = true ->
  forall s, Text.like_chars (t ++ [Text.percent]) s
            = Spec.prefix_nocase t s.
Proof.
  induction t as [|a t IH]; intros Ht s.
  - apply like_chars_any.
  - simpl in Ht. apply andb_true_iff in Ht. destruct Ht as [Ha Ht].
    apply andb_true_iff in Ha. destruct Ha as [Hp Hu].
    apply negb_true_iff, N.eqb_neq in Hp.
    apply negb_true_iff, N.eqb_neq in Hu.
    rewrite <- app_comm_cons.
    rewrite like_chars_cons by exact Hp.
    destruct s as [|b s]; [reflexivity|].
    rewrite like_char_same_letter by exact Hu.
    rewrite IH by exact Ht. reflexivity.
Qed.

Lemma like_chars_contains (t : list N) :
  plain_chars t = true ->
  forall s, Text.like_chars (Text.percent :: t ++ [Text.percent]) s
            = Spec.contains_nocase t s.
Proof.
  intros Ht. induction s as [|b s IH].
  - rewrite like_chars_percent, like_chars_prefix by exact Ht.
    simpl. reflexivity.
  - rewrite like_chars_percent, like_chars_prefix by exact Ht.
    rewrite IH. reflexivity.
Qed.

Lemma like_null_contains (text : string) (column : option string) :
  plain_text text = true ->
  like_null column ("%" ++ text ++ "%") = Spec.column_contains text column.
Proof.
  intros Ht. destruct column as [s|]; [|reflexivity].
  unfold like_null, Text.like, Spec.column_contains.
  rewrite chars_pattern. apply like_chars_contains. exact Ht.
Qed.

(** *** [find_tx] *)

Lemma filter_andb {A : Type} (f g : A -> bool) (l : list A) :
  filter g (filter f l) = filter (fun x => f x && g x) l.
Proof.
  induction l as [|x l IH]; simpl; [reflexivity|].
  destruct (f x); simpl; [|exact IH].
  destruct (g x); rewrite IH; reflexivity.
Qed.

Lemma length_append (a b : string) :
  String.length (a ++ b) = (String.length a + String.length b)%nat.
Proof. induction a as [|c a IH]; simpl; [reflexivity|]. now rewrite IH. Qed.

Lemma where_start_present (start : option string) (t : transaction) :
  start <> Some "" ->
  where_start start t
  = match start with Some d => String.leb d (tx_dt t) | None => true end.
Proof.
  intros H. destruct start as [d|]; [|reflexivity]. simpl.
  destruct (String.eqb_spec d ""); [subst; contradiction|reflexivity].
Qed.

Lemma where_end_present (end_ : option string) (t : transaction) :
  end_ <> Some "" ->
  where_end end_ t
  = match end_ with Some d => String.leb (tx_dt t) d | None => true end.
Proof.
  intros H. destruct end_ as [d|]; [|reflexivity]. simpl.
  destruct (String.eqb_spec d ""); [subst; contradiction|reflexivity].
Qed.

Lemma where_category_present (category : option Z) (t : transaction) :
  category <> Some 0 ->
  where_category category t
  = match category with
    | Some c => match tx_category_id t with
                | Some i => i =? c
                | None => false
                end
    | None => true
    end.
Proof.
  intros H. destruct category as [c|]; [|reflexivity]. simpl.
  destruct (Z.eqb_spec c 0); [subst; contradiction|reflexivity].
Qed.

Lemma where_kind_present (kind : option string) (t : transaction) :
  match kind with Some k => kind_check k = true | None => True end ->
  where_kind kind t
  = match kind with Some k => (tx_kind t =? k)%string | None => true end.
Proof.
  intros H. destruct kind as [k|]; [|reflexivity]. simpl. now rewrite H.
Qed.


Lemma find_tx_plain (db : Database) (start end_ : option string)
  (category : option Z) (kind text : option string) :
  start <> Some "" -> end_ <> Some "" -> category <> Some 0 ->
  match kind with Some k => kind_check k = true | None => True end ->
  match text with
  | Some x => x <> "" /\ plain_text x = true
              /\ Z.of_nat (String.length x) + 2 <= Text.like_pattern_limit
  | None => True
  end ->
  find_tx db start end_ category kind text
  = Ok (order_by tx_order
          (filter (Spec.matches start end_ category kind text)
             (map (join_category db) (rows (transactions db))))).
Proof.
  intros Hs He Hc Hk Ht. unfold find_tx.
  set (joined := map (join_category db) (rows (transactions db))).
  set (sel := filter _ joined).
  assert (Hsel : match text with
                 | Some x => filter (where_text ("%" ++ x ++ "%")) sel
                 | None => sel
                 end
                 = filter (Spec.matches start end_ category kind text)
                     joined).
  { destruct text as [x|].
    - unfold sel. rewrite filter_andb. apply filter_ext. intros r.
      unfold Spec.matches, where_text.
      destruct Ht as [_ [Hp _]].
      rewrite where_start_present, where_end_present,
        where_category_present, where_kind_present by assumption.
      rewrite !like_null_contains by exact Hp. reflexivity.
    - unfold sel. apply filter_ext. intros r. unfold Spec.matches.
      rewrite where_start_present, where_end_present,
        where_category_present, where_kind_present by assumption.
      now rewrite andb_true_r. }
  rewrite <- Hsel. destruct text as [x|]; [|reflexivity].
  destruct Ht as [Hx [_ Hlen]].
  destruct (String.eqb_spec x ""); [contradiction|].
  destruct sel as [|r sel']; [reflexivity|].
  replace (Text.like_pattern_limit
           <? Z.of_nat (String.length ("%" ++ x ++ "%"))) with false;
    [reflexivity|].
  symmetry. apply Z.ltb_ge. rewrite !length_append. simpl String.length.
  lia.
Qed.



(** With no filter at all, every transaction is returned. *)
Lemma find_tx_no_filter (db : Database) :
  exists found,
    find_tx db None None None None None = Ok found
    /\ Permutation found (map (join_category db) (rows (transactions db)))
    /\ Sorted Spec.newest_first found.
Proof.
  destruct (find_tx_plain db None None None None None) as [];
    try discriminate; try exact I.
  eexists. split; [reflexivity|]. split.
  - symmetry. etransitivity; [|apply order_by_perm].
    clear. induction (map (join_category db) (rows (transactions db)));
      simpl; [constructor|]. constructor. assumption.
  - apply (Sorted_impl (fun a b => tx_order a b = true)).
    + exact tx_order_newest_first.
    + apply order_by_sorted. exact tx_order_total.
Qed.

(** ** Totals by category *)

Lemma SFcompare_antisym (x y : Num.float) :
  SFcompare y x = option_map CompOpp (SFcompare x y).
Proof.
  destruct x as [sx|sx| |sx mx ex], y as [sy|sy| |sy my ey]; simpl;
    try reflexivity;
    try (destruct sx; reflexivity); try (destruct sy; reflexivity);
    try (destruct sx, sy; reflexivity).
  pose proof (Pos.compare_cont_antisym mx my Eq) as H. simpl in H.
  destruct sx, sy; try reflexivity; rewrite (Z.compare_antisym ex ey);
    destruct (ex ?= ey); simpl; try reflexivity;
    rewrite <- H; destruct (Pos.compare_cont Eq mx my); reflexivity.
Qed.

Lemma fleb_total (x y : Num.float) :
  Num.is_nan x = false -> Num.is_nan y = false ->
  Num.fleb x y = true \/ Num.fleb y x = true.
Proof.
  intros Hx Hy. unfold Num.fleb, SFleb. rewrite (SFcompare_antisym x y).
  destruct (SFcompare x y) as [[]|] eqn:E; simpl; auto.
  destruct x, y; try discriminate.
Qed.

Lemma sql_sum_summed (c : category) (xs : list Num.float) :
  summed {| group_category := c; group_total := sql_sum xs |}.
Proof.
  unfold summed, sql_sum. simpl.
  destruct (Num.is_nan (fold_left Num.fadd xs Num.fzero)) eqn:E;
    [exact I|exact E].
Qed.

Lemma cat_groups_summed (db : Database) (start end_ kind : option string) :
  Forall summed (cat_groups db start end_ kind).
Proof.
  unfold cat_groups. apply Forall_forall. intros g Hg.
  apply in_flat_map in Hg. destruct Hg as [c [_ Hg]].
  destruct (filter _ _); [contradiction|].
  destruct Hg as [<-|[]]. apply sql_sum_summed.
Qed.

Lemma total_desc_total (a b : cat_group) :
  summed a -> summed b -> total_desc a b = true \/ total_desc b a = true.
Proof.
  unfold summed, total_desc, totals_desc.
  destruct (group_total a) as [x|], (group_total b) as [y|]; auto.
  intros Hx Hy. destruct (fleb_total x y Hx Hy); auto.
Qed.

Section SortingOn.

Context {A : Type} (leb : A -> A -> bool) (P : A -> Prop).
Hypothesis leb_total_on :
  forall a b, P a -> P b -> leb a b = true \/ leb b a = true.

Lemma insert_sorted_on (x : A) (l : list A) :
  P x -> Forall P l ->
  Sorted (fun a b => leb a b = true) l ->
  Sorted (fun a b => leb a b = true) (insert_sorted leb x l).
Proof.
  intros Hx Hl Hs. induction Hs as [|y l Hs IH Hd]; simpl.
  - repeat constructor.
  - inversion Hl as [|? ? Hy Hl']; subst.
    destruct (leb x y) eqn:E.
    + constructor; [constructor; assumption|]. constructor. exact E.
    + constructor; [exact (IH Hl')|].
      assert (Hyx : leb y x = true).
      { destruct (leb_total_on x y Hx Hy) as [H|H]; [congruence|exact H]. }
      destruct l as [|z l]; simpl.
      * constructor. exact Hyx.
      * destruct (leb x z); constructor; [exact Hyx|].
        inversion Hd; assumption.
Qed.

Lemma order_by_sorted_on (l : list A) :
  Forall P l -> Sorted (fun a b => leb a b = true) (order_by leb l).
Proof.
  unfold order_by. induction 1 as [|x l Hx Hl IH]; simpl; [constructor|].
  apply insert_sorted_on; [exact Hx| |exact IH].
  apply Forall_forall. intros y Hy.
  apply (Permutation_in y (Permutation_sym (order_by_perm leb l))) in Hy.
  revert y Hy. apply Forall_forall. exact Hl.
Qed.

End SortingOn.

(** The query always has a result. *)
Lemma cat_sums_exists (db : Database) (start end_ kind : option string) :
  cat_sums db start end_ kind
    (map cat_row (order_by total_desc (cat_groups db start end_ kind))).
Proof.
  eexists. split; [|reflexivity]. split; [apply order_by_perm|].
  apply (order_by_sorted_on total_desc summed total_desc_total).
  apply cat_groups_summed.
Qed.

Lemma in_cat_groups (db : Database) (start end_ kind : option string)
  (g : cat_group) :
  In g (cat_groups db start end_ kind) <->
  In (group_category g) (rows (categories db))
  /\ filter (in_group start end_ kind (group_category g))
       (rows (transactions db)) <> []
  /\ group_total g
     = sql_sum (map tx_amount
                  (filter (in_group start end_ kind (group_category g))
                     (rows (transactions db)))).
Proof.
  unfold cat_groups. rewrite in_flat_map. split.
  - intros [c [Hc Hg]].
    destruct (filter (in_group start end_ kind c) _) as [|t l] eqn:E;
      [contradiction|].
    destruct Hg as [<-|[]]. simpl. rewrite E.
    repeat split; [exact Hc|discriminate].
  - intros [Hc [Hne Ht]]. exists (group_category g). split; [exact Hc|].
    destruct (filter _ _) as [|t l]; [congruence|].
    left. destruct g as [c x]. simpl in *. now rewrite Ht.
Qed.

Lemma cat_groups_categorized_only (db : Database)
  (start end_ kind : option string) :
  cat_groups (categorized_only db) start end_ kind
  = cat_groups db start end_ kind.
Proof.
  unfold cat_groups, categorized_only. cbn [with_transactions categories
    transactions rows].
  apply flat_map_ext. intros c. rewrite filter_andb.
  replace (filter (fun x => _ && in_group start end_ kind c x)
             (rows (transactions db)))
    with (filter (in_group start end_ kind c) (rows (transactions db)));
    [reflexivity|].
  apply filter_ext. intros t. unfold in_group.
  destruct (tx_category_id t); [reflexivity|]. now rewrite andb_false_r.
Qed.

Lemma Sorted_map {A B : Type} (f : A -> B) (R : B -> B -> Prop)
  (l : list A) :
  Sorted (fun a b => R (f a) (f b)) l -> Sorted R (map f l).
Proof.
  induction 1 as [|x l Hs IH Hd]; simpl; constructor; [exact IH|].
  destruct Hd; simpl; constructor; assumption.
Qed.

(** C4, the statement as the specification has it, fails: with equal
    totals under categories 1 and 2, the list that puts category 2
    first is as much a result of the query as the list in id order. *)
Lemma cat_sums_tie_order_open :
  cat_sums tied_totals None None None
    [("Кафе и рестораны", Some (S754_finite false 5629499534213120 (-49)));
     ("Продукты", Some (S754_finite false 5629499534213120 (-49)))]
  /\ cat_sums tied_totals None None None
       [("Продукты", Some (S754_finite false 5629499534213120 (-49)));
        ("Кафе и рестораны",
         Some (S754_finite false 5629499534213120 (-49)))].
Proof.
  split.
  - exists [{| group_category := {| cat_id := 2;
                                    cat_name := "Кафе и рестораны";
                                    cat_kind := "expense" |};
               group_total :=
                 Some (S754_finite false 5629499534213120 (-49)) |};
            {| group_category := {| cat_id := 1; cat_name := "Продукты";
                                    cat_kind := "expense" |};
               group_total :=
                 Some (S754_finite false 5629499534213120 (-49)) |}].
    split; [split|reflexivity].
    + vm_compute. apply perm_swap.
    + repeat constructor.
  - exists [{| group_category := {| cat_id := 1; cat_name := "Продукты";
                                    cat_kind := "expense" |};
               group_total :=
                 Some (S754_finite false 5629499534213120 (-49)) |};
            {| group_category := {| cat_id := 2;
                                    cat_name := "Кафе и рестораны";
                                    cat_kind := "expense" |};
               group_total :=
                 Some (S754_finite false 5629499534213120 (-49)) |}].
    split; [split|reflexivity].
    + vm_compute. apply Permutation_refl.
    + repeat constructor.
Qed.


(** * Further properties of the store *)

(** ** Deleting and editing a transaction *)

Lemma find_filter_out {A : Type} (id : A -> Z) (tid other : Z)
  (l : list A) :
  find (fun r => id r =? other) (filter (fun r => negb (id r =? tid)) l)
  = if other =? tid then None else find (fun r => id r =? other) l.
Proof.
  induction l as [|r l IH]; simpl.
  - destruct (other =? tid); reflexivity.
  - destruct (Z.eqb_spec (id r) tid) as [E|E]; simpl.
    + rewrite IH. destruct (Z.eqb_spec other tid) as [E'|E'];
        [reflexivity|].
      destruct (Z.eqb_spec (id r) other); [congruence|reflexivity].
    + destruct (Z.eqb_spec (id r) other) as [E'|E']; [|exact IH].
      destruct (Z.eqb_spec other tid); [congruence|reflexivity].
Qed.

Lemma filter_absent {A : Type} (id : A -> Z) (tid : Z) (l : list A) :
  existsb (fun r => id r =? tid) l = false ->
  filter (fun r => negb (id r =? tid)) l = l.
Proof.
  induction l as [|r l IH]; simpl; [reflexivity|].
  intros H. apply orb_false_iff in H. destruct H as [H1 H2].
  rewrite H1. simpl. now rewrite IH.
Qed.

(** X1: [del_tx] removes the transaction with the given id and no
    other: every other id reads back as before, the categories and the
    AUTOINCREMENT counter are untouched, and an id that is absent leaves
    the rows as they were (no error is raised). *)
Theorem del_tx_removes_only (db : Database) (tid : Z) :
  get_transaction (del_tx db tid) tid = None
  /\ (forall other, other <> tid ->
        get_transaction (del_tx db tid) other = get_transaction db other)
  /\ categories (del_tx db tid) = categories db
  /\ seq (transactions (del_tx db tid)) = seq (transactions db)
  /\ (has_transaction tid (rows (transactions db)) = false ->
      rows (transactions (del_tx db tid)) = rows (transactions db)).
Proof.
  unfold get_transaction, del_tx. cbn [with_transactions transactions
    categories rows seq].
  split; [|split; [|split; [|split]]].
  - rewrite find_filter_out, Z.eqb_refl. reflexivity.
  - intros other H. rewrite find_filter_out.
    apply Z.eqb_neq in H. now rewrite H.
  - reflexivity.
  - reflexivity.
  - apply filter_absent.
Qed.

Lemma find_map_update (tid : Z) (new : transaction -> transaction)
  (l : list transaction) (old : transaction) :
  (forall r, tx_id (new r) = tid) ->
  find (fun r => tx_id r =? tid) l = Some old ->
  find (fun r => tx_id r =? tid)
    (map (fun r => if tx_id r =? tid then new r else r) l)
  = Some (new old).
Proof.
  intros Hnew. induction l as [|r l IH]; simpl; [discriminate|].
  destruct (Z.eqb_spec (tx_id r) tid) as [E|E].
  - intros H. injection H as <-. simpl. now rewrite Hnew, Z.eqb_refl.
  - intros H. simpl. apply Z.eqb_neq in E. rewrite E. exact (IH H).
Qed.

Lemma find_map_other (tid other : Z) (new : transaction -> transaction)
  (l : list transaction) :
  (forall r, tx_id (new r) = tid) -> other <> tid ->
  find (fun r => tx_id r =? other)
    (map (fun r => if tx_id r =? tid then new r else r) l)
  = find (fun r => tx_id r =? other) l.
Proof.
  intros Hnew Hne. induction l as [|r l IH]; simpl; [reflexivity|].
  destruct (Z.eqb_spec (tx_id r) tid) as [E|E].
  - rewrite Hnew, E.
    destruct (Z.eqb_spec tid other); [congruence|exact IH].
  - destruct (tx_id r =? other); [reflexivity|exact IH].
Qed.

Lemma map_id_update (tid : Z) (new : transaction -> transaction)
  (l : list transaction) :
  (forall r, tx_id (new r) = tid) ->
  map tx_id (map (fun r => if tx_id r =? tid then new r else r) l)
  = map tx_id l.
Proof.
  intros Hnew. induction l as [|r l IH]; simpl; [reflexivity|].
  rewrite IH. destruct (Z.eqb_spec (tx_id r) tid) as [E|E];
    [now rewrite Hnew, E|reflexivity].
Qed.

Lemma find_has_transaction (tid : Z) (l : list transaction)
  (t : transaction) :
  find (fun r => tx_id r =? tid) l = Some t -> has_transaction tid l = true.
Proof.
  intros H. apply find_some in H. apply existsb_exists. now exists t.
Qed.

(** X2: [edit_tx] on an id that is present, with a valid kind and a
    finite amount, rewrites that transaction's date, kind, amount,
    category and description; its id and its [created_at] stay, every
    other transaction reads back as before, and the categories are
    untouched.  The amount read back is [float(amount)] as the REAL
    column returns it: the same number, a negative zero (an amount below
    zero too small for a float) coming back as [0.0]. *)
Theorem edit_tx_present (db : Database) (tid : Z) (dt kind : string)
  (c e : Z) (cat : option Z) (desc : option string) (old : transaction) :
  get_transaction db tid = Some old ->
  kind_check kind = true ->
  reference_ok db cat = true ->
  exists db' x,
    edit_tx db tid dt kind (Num.DFin c e) cat desc = Ok db'
    /\ Num.float_of_decimal (Num.DFin c e) = Ok x
    /\ get_transaction db' tid
       = Some {| tx_id := tid; tx_dt := dt; tx_kind := kind;
                 tx_amount := Num.real_column x; tx_category_id := cat;
                 tx_description := desc;
                 tx_created_at := tx_created_at old |}
    /\ (0 <= c -> Num.real_column x = x)
    /\ (forall other, other <> tid ->
          get_transaction db' other = get_transaction db other)
    /\ map tx_id (rows (transactions db'))
       = map tx_id (rows (transactions db))
    /\ categories db' = categories db.
Proof.
  intros Hold Hk Hr.
  destruct (float_of_decimal_finite c e) as [x [Hx Hnan]].
  unfold edit_tx. rewrite Hx. cbn [bind].
  rewrite (find_has_transaction tid _ old Hold), Hnan, Hk, Hr.
  cbn [negb]. eexists. exists x. split; [reflexivity|].
  split; [reflexivity|].
  unfold get_transaction. cbn [with_transactions transactions categories
    rows].
  split; [|split; [|split; [|split]]].
  - apply (find_map_update tid
             (fun r => {| tx_id := tid; tx_dt := dt; tx_kind := kind;
                          tx_amount := Num.real_column x;
                          tx_category_id := cat;
                          tx_description := desc;
                          tx_created_at := tx_created_at r |}));
      [reflexivity|exact Hold].
  - intros Hc. destruct (Z.eq_dec c 0) as [->|Hne].
    + injection Hx as <-. reflexivity.
    + apply (float_of_decimal_positive c e); [lia|exact Hx].
  - intros other Hne.
    apply (find_map_other tid other
             (fun r => {| tx_id := tid; tx_dt := dt; tx_kind := kind;
                          tx_amount := Num.real_column x;
                          tx_category_id := cat;
                          tx_description := desc;
                          tx_created_at := tx_created_at r |}));
      [reflexivity|exact Hne].
  - apply (map_id_update tid
             (fun r => {| tx_id := tid; tx_dt := dt; tx_kind := kind;
                          tx_amount := Num.real_column x;
                          tx_category_id := cat;
                          tx_description := desc;
                          tx_created_at := tx_created_at r |}));
      reflexivity.
  - reflexivity.
Qed.

Lemma edit_tx_present_witness :
  exists db' x,
    edit_tx (store_after (Database_new empty_file) taxi_ride) 1
      "2024-01-04" "income" (Num.DFin (-1) (-400)) (Some 5) None = Ok db'
    /\ Num.float_of_decimal (Num.DFin (-1) (-400)) = Ok x
    /\ get_transaction db' 1
       = Some {| tx_id := 1; tx_dt := "2024-01-04"; tx_kind := "income";
                 tx_amount := Num.real_column x; tx_category_id := Some 5;
                 tx_description := None;
                 tx_created_at :=
                   tx_created_at
                     {| tx_id := 1; tx_dt := "2024-01-03";
                        tx_kind := "expense";
                        tx_amount := S754_finite false 7916483719987200 (-44);
                        tx_category_id := Some 3;
                        tx_description := Some "taxi home";
                        tx_created_at := clock |} |}
    /\ (0 <= -1 -> Num.real_column x = x)
    /\ (forall other, other <> 1 ->
          get_transaction db' other
          = get_transaction
              (store_after (Database_new empty_file) taxi_ride) other)
    /\ map tx_id (rows (transactions db'))
       = map tx_id
           (rows (transactions
                    (store_after (Database_new empty_file) taxi_ride)))
    /\ categories db'
       = categories (store_after (Database_new empty_file) taxi_ride).
Proof.
  apply edit_tx_present; vm_compute; reflexivity.
Defined.

(** An amount below zero that is too small for a float is written as
    [-0.0] by [float] and read back as [0.0]. *)
Lemma negative_underflow_reads_zero :
  Num.float_of_decimal (Num.DFin (-1) (-400)) = Ok (S754_zero true)
  /\ Num.real_column (S754_zero true) = S754_zero false.
Proof. split; vm_compute; reflexivity. Qed.

(** ** What [add_tx] checks *)

(** X3: [Database.add_tx] checks neither the sign of the amount nor
    the category id.  On the connection the program opens (foreign keys
    not enforced), any finite decimal amount, positive or not, with one
    of the two kinds is stored, whatever the category id; the amount in
    the new row is [float(amount)] as the REAL column returns it. *)
Theorem add_tx_unchecked (db : Database) (now dt kind : string)
  (c e : Z) (cat : option Z) (desc : option string) :
  foreign_keys db = false ->
  kind_check kind = true ->
  exists db' x,
    add_tx db now dt kind (Num.DFin c e) cat desc = Ok db'
    /\ Num.float_of_decimal (Num.DFin c e) = Ok x
    /\ rows (transactions db')
       = rows (transactions db)
         ++ [{| tx_id := new_rowid tx_id (transactions db);
                tx_dt := dt; tx_kind := kind;
                tx_amount := Num.real_column x;
                tx_category_id := cat; tx_description := desc;
                tx_created_at := now |}]
    /\ (0 <= c -> Num.real_column x = x).
Proof.
  intros Hfk Hk.
  destruct (float_of_decimal_finite c e) as [x [Hx Hnan]].
  unfold add_tx. rewrite Hx. cbn [bind]. rewrite Hnan, Hk.
  assert (Hr : reference_ok db cat = true).
  { unfold reference_ok. destruct cat; [|reflexivity]. now rewrite Hfk. }
  rewrite Hr. cbn [negb]. eexists. exists x.
  split; [reflexivity|]. split; [reflexivity|]. split; [reflexivity|].
  intros Hc. destruct (Z.eq_dec c 0) as [->|Hne].
  - injection Hx as <-. reflexivity.
  - apply (float_of_decimal_positive c e); [lia|exact Hx].
Qed.

Lemma add_tx_unchecked_witness :
  exists db' x,
    add_tx (Database_new empty_file) clock "2024-01-05" "expense"
      (Num.DFin (-500) (-2)) (Some 99) None = Ok db'
    /\ Num.float_of_decimal (Num.DFin (-500) (-2)) = Ok x
    /\ rows (transactions db')
       = rows (transactions (Database_new empty_file))
         ++ [{| tx_id := new_rowid tx_id
                           (transactions (Database_new empty_file));
                tx_dt := "2024-01-05"; tx_kind := "expense";
                tx_amount := Num.real_column x;
                tx_category_id := Some 99;
                tx_description := None; tx_created_at := clock |}]
    /\ (0 <= -500 -> Num.real_column x = x).
Proof.
  apply add_tx_unchecked; reflexivity.
Defined.

(** X4: what [add_tx] does refuse, whatever the other arguments.  A
    signaling NaN fails in [float(amount)] with ValueError; a quiet NaN
    is bound as NULL and fails the NOT NULL constraint, whether the
    kind is valid or not; and every other amount, finite or infinite,
    with a kind other than the two fails the CHECK constraint.  In each
    case the call raises, so nothing is written. *)
Theorem add_tx_refused (db : Database) (now dt kind : string)
  (cat : option Z) (desc : option string) :
  add_tx db now dt kind (Num.DNaN true) cat desc
  = Raise (ValueError "cannot convert signaling NaN to float")
  /\ add_tx db now dt kind (Num.DNaN false) cat desc
     = Raise not_null_failed
  /\ (forall amount,
        kind_check kind = false ->
        (forall s, amount <> Num.DNaN s) ->
        add_tx db now dt kind amount cat desc = Raise check_failed).
Proof.
  split; [reflexivity|]. split; [reflexivity|].
  intros amount Hk Hn. destruct amount as [c e|s|s].
  - destruct (float_of_decimal_finite c e) as [x [Hx Hnan]].
    unfold add_tx. rewrite Hx. cbn [bind]. now rewrite Hnan, Hk.
  - unfold add_tx. cbn [Num.float_of_decimal bind Num.is_nan].
    now rewrite Hk.
  - exfalso. exact (Hn s eq_refl).
Qed.

(** ** The schema's guarantees are kept *)

Section Rowids.

Context {R : Type} (id : R -> Z).

Lemma max_rowid_ids (l l' : list R) :
  map id l = map id l' -> max_rowid id l = max_rowid id l'.
Proof.
  revert l'. induction l as [|r l IH]; intros [|r' l'] H;
    try discriminate; [reflexivity|].
  simpl in *. injection H as H1 H2. rewrite H1. f_equal. now apply IH.
Qed.

Lemma max_rowid_filter (p : R -> bool) (l : list R) :
  max_rowid id (filter p l) <= max_rowid id l.
Proof.
  induction l as [|r l IH]; simpl; [lia|].
  destruct (p r); simpl; lia.
Qed.

Lemma NoDup_map_filter (p : R -> bool) (l : list R) :
  NoDup (map id l) -> NoDup (map id (filter p l)).
Proof.
  induction l as [|r l IH]; simpl; [trivial|].
  intros H. inversion H as [|? ? Hn Hd]; subst.
  destruct (p r); simpl; [|exact (IH Hd)].
  constructor; [|exact (IH Hd)].
  intros Hin. apply Hn. apply in_map_iff in Hin.
  destruct Hin as [x [Hx Hin]]. apply filter_In in Hin.
  apply in_map_iff. exists x. tauto.
Qed.

Lemma NoDup_append_fresh (l : list R) (r : R) (s : Z) :
  NoDup (map id l) ->
  id r = Z.max s (max_rowid id l) + 1 ->
  NoDup (map id (l ++ [r])) /\ max_rowid id (l ++ [r]) <= id r.
Proof.
  intros Hd Hr. split.
  - rewrite map_app. simpl.
    apply (Permutation_NoDup (l := id r :: map id l)).
    + apply Permutation_cons_append.
    + constructor; [|exact Hd]. intros Hin.
      apply in_map_iff in Hin. destruct Hin as [x [Hx Hin]].
      pose proof (max_rowid_bound id l x Hin). lia.
  - rewrite max_rowid_app. pose proof (max_rowid_nonneg id l). lia.
Qed.

End Rowids.

Lemma Forall_append {A : Type} (P : A -> Prop) (l : list A) (x : A) :
  Forall P l -> P x -> Forall P (l ++ [x]).
Proof.
  intros Hl Hx. apply Forall_app. split; [exact Hl|]. now constructor.
Qed.

Lemma Forall_filter {A : Type} (P : A -> Prop) (p : A -> bool)
  (l : list A) :
  Forall P l -> Forall P (filter p l).
Proof.
  rewrite !Forall_forall. intros H x Hx. apply filter_In in Hx.
  apply H. tauto.
Qed.

Lemma Forall_update {A : Type} (P : A -> Prop) (p : A -> bool)
  (new : A -> A) (l : list A) :
  Forall P l -> (forall x, P (new x)) ->
  Forall P (map (fun x => if p x then new x else x) l).
Proof.
  intros H Hnew. induction H as [|x l Hx Hl IH]; simpl; constructor;
    [|exact IH].
  destruct (p x); [apply Hnew|exact Hx].
Qed.

Lemma name_not_taken (n : string) (l : list category) :
  name_taken n l = false -> ~ In n (map cat_name l).
Proof.
  intros H Hin. apply in_map_iff in Hin. destruct Hin as [c [Hc Hin]].
  rewrite (name_taken_In n l c Hin Hc) in H. discriminate.
Qed.

Lemma NoDup_append_name (l : list category) (c : category) :
  NoDup (map cat_name l) -> name_taken (cat_name c) l = false ->
  NoDup (map cat_name (l ++ [c])).
Proof.
  intros Hd Hn. rewrite map_app. simpl.
  apply (Permutation_NoDup (l := cat_name c :: map cat_name l)).
  - apply Permutation_cons_append.
  - constructor; [now apply name_not_taken|exact Hd].
Qed.

Lemma existsb_false_In {A : Type} (f : A -> bool) (l : list A) (x : A) :
  existsb f l = false -> In x l -> f x = false.
Proof.
  intros H Hin. destruct (f x) eqn:E; [|reflexivity].
  rewrite <- H. symmetry. apply existsb_exists. now exists x.
Qed.

(** Renaming one row keeps names distinct when no other row has the new
    name. *)
Lemma NoDup_rename (cid : Z) (name kind : string) (l : list category) :
  NoDup (map cat_id l) -> NoDup (map cat_name l) ->
  existsb (fun c => (cat_name c =? name)%string && negb (cat_id c =? cid)) l
  = false ->
  NoDup (map cat_name
           (map (fun c => if cat_id c =? cid then
                            {| cat_id := cid; cat_name := name;
                               cat_kind := kind |}
                          else c) l)).
Proof.
  set (upd := fun c => if cat_id c =? cid then _ else c).
  assert (Hnames : forall l' x,
             In x (map cat_name (map upd l')) ->
             x = name \/ In x (map cat_name l')).
  { induction l' as [|r l' IH]; simpl; [tauto|].
    intros x [Hx|Hx].
    - unfold upd in Hx. destruct (cat_id r =? cid); simpl in Hx; auto.
    - destruct (IH x Hx); auto. }
  induction l as [|r l IH]; simpl; [constructor|].
  intros Hid Hnm Hex.
  inversion Hid as [|? ? Hid1 Hid2]; subst.
  inversion Hnm as [|? ? Hnm1 Hnm2]; subst.
  apply orb_false_iff in Hex. destruct Hex as [Hr Hex].
  constructor; [|exact (IH Hid2 Hnm2 Hex)].
  intros Hin. unfold upd at 1 in Hin.
  destruct (Z.eqb_spec (cat_id r) cid) as [E|E]; simpl in Hin.
  - assert (Hsame : map upd l = l).
    { rewrite <- (map_id l) at 2. apply map_ext_in. intros c Hc.
      unfold upd. destruct (Z.eqb_spec (cat_id c) cid) as [E'|E'];
        [|reflexivity].
      exfalso. apply Hid1. apply in_map_iff. exists c.
      split; [congruence|exact Hc]. }
    rewrite Hsame in Hin. apply in_map_iff in Hin.
    destruct Hin as [c [Hc Hc']].
    pose proof (existsb_false_In _ l c Hex Hc') as Hcc.
    simpl in Hcc. rewrite Hc, String.eqb_refl in Hcc. simpl in Hcc.
    apply negb_false_iff, Z.eqb_eq in Hcc.
    apply Hid1. apply in_map_iff. exists c. split; [congruence|exact Hc'].
  - apply Hnames in Hin. destruct Hin as [Hin|Hin]; [|exact (Hnm1 Hin)].
    rewrite Hin, String.eqb_refl in Hr. simpl in Hr. discriminate.
Qed.

Lemma NoDup_names_filter (p : category -> bool) (l : list category) :
  NoDup (map cat_name l) -> NoDup (map cat_name (filter p l)).
Proof.
  induction l as [|r l IH]; simpl; [trivial|].
  intros H. inversion H as [|? ? Hn Hd]; subst.
  destruct (p r); simpl; [|exact (IH Hd)].
  constructor; [|exact (IH Hd)].
  intros Hin. apply Hn. apply in_map_iff in Hin.
  destruct Hin as [x [Hx Hin]]. apply filter_In in Hin.
  apply in_map_iff. exists x. tauto.
Qed.

Lemma Forall_map_keep {A : Type} (P : A -> Prop) (f : A -> A)
  (l : list A) :
  Forall P l -> (forall x, P x -> P (f x)) -> Forall P (map f l).
Proof.
  intros H Hf. induction H; simpl; constructor; auto.
Qed.

Lemma map_cat_id_update (cid : Z) (name kind : string)
  (l : list category) :
  map cat_id
    (map (fun c => if cat_id c =? cid then
                     {| cat_id := cid; cat_name := name; cat_kind := kind |}
                   else c) l)
  = map cat_id l.
Proof.
  induction l as [|c l IH]; simpl; [reflexivity|]. rewrite IH.
  destruct (Z.eqb_spec (cat_id c) cid) as [E|E]; [now rewrite E|reflexivity].
Qed.

Lemma add_cat_consistent (db : Database) (n k : string) :
  consistent db -> consistent (store_after db (add_cat db n k)).
Proof.
  intros H. unfold add_cat.
  destruct (kind_check k) eqn:Hk; simpl; [|exact H].
  destruct (name_taken n (rows (categories db))) eqn:Hn; simpl; [exact H|].
  destruct H as [H1 H2 H3 H4 H5 H6 H7 H8].
  destruct (NoDup_append_fresh cat_id (rows (categories db))
              {| cat_id := new_rowid cat_id (categories db);
                 cat_name := n; cat_kind := k |}
              (seq (categories db)) H1 eq_refl) as [Ha Hb].
  constructor; cbn [with_categories categories transactions rows seq];
    try assumption.
  - now apply NoDup_append_name.
  - now apply Forall_append.
Qed.

Lemma ioi_consistent (db : Database) (n k : string) :
  consistent db -> consistent (insert_or_ignore_category db n k).
Proof.
  intros [H1 H2 H3 H4 H5 H6 H7 H8]. unfold insert_or_ignore_category.
  destruct (negb (kind_check k) || name_taken n (rows (categories db)))
    eqn:E.
  - constructor; cbn [with_categories categories transactions rows seq];
      try assumption.
    unfold new_rowid. lia.
  - apply orb_false_iff in E. destruct E as [Hk Hn].
    apply negb_false_iff in Hk.
    destruct (NoDup_append_fresh cat_id (rows (categories db))
                {| cat_id := new_rowid cat_id (categories db);
                   cat_name := n; cat_kind := k |}
                (seq (categories db)) H1 eq_refl) as [Ha Hb].
    constructor; cbn [with_categories categories transactions rows seq];
      try assumption.
    + now apply NoDup_append_name.
    + now apply Forall_append.
Qed.

Lemma seed_consistent (l : list (string * string)) : forall db,
  consistent db -> consistent (seed l db).
Proof.
  unfold seed. induction l as [|nk l IH]; intros db H; [exact H|].
  simpl. apply IH. now apply ioi_consistent.
Qed.

Lemma restart_consistent (db : Database) :
  consistent db -> consistent (Database_new (commit db)).
Proof.
  intros [H1 H2 H3 H4 H5 H6 H7 H8].
  unfold Database_new, _init, _create_defaults.
  apply seed_consistent. constructor; assumption.
Qed.

Lemma edit_cat_consistent (db : Database) (cid : Z) (n k : string) :
  consistent db -> consistent (store_after db (edit_cat db cid n k)).
Proof.
  intros H. unfold edit_cat.
  destruct (has_category cid (rows (categories db))); [|exact H].
  destruct (kind_check k) eqn:Hk; simpl; [|exact H].
  destruct (existsb _ (rows (categories db))) eqn:Hex; simpl; [exact H|].
  destruct H as [H1 H2 H3 H4 H5 H6 H7 H8].
  constructor; cbn [with_categories categories transactions rows seq];
    try assumption.
  - now rewrite map_cat_id_update.
  - rewrite (max_rowid_ids cat_id _ (rows (categories db)));
      [exact H2|apply map_cat_id_update].
  - now apply NoDup_rename.
  - apply (Forall_update _ (fun c => cat_id c =? cid)
             (fun _ => {| cat_id := cid; cat_name := n; cat_kind := k |}));
      [exact H4|intros ?; exact Hk].
Qed.

Lemma set_null_id (cid : Z) (l : list transaction) :
  map tx_id (map (set_null cid) l) = map tx_id l.
Proof.
  rewrite map_map. apply map_ext. intros t.
  apply (set_null_fields cid t).
Qed.

Lemma del_cat_consistent (db : Database) (cid : Z) :
  consistent db -> consistent (del_cat db cid).
Proof.
  intros [H1 H2 H3 H4 H5 H6 H7 H8]. unfold del_cat.
  constructor; cbn [categories transactions rows seq].
  - now apply NoDup_map_filter.
  - pose proof (max_rowid_filter cat_id
                  (fun c => negb (cat_id c =? cid)) (rows (categories db))).
    lia.
  - now apply NoDup_names_filter.
  - now apply Forall_filter.
  - destruct (_ && _); cbn [rows]; [now rewrite set_null_id|exact H5].
  - destruct (_ && _); cbn [rows seq]; [|exact H6].
    rewrite (max_rowid_ids tx_id _ (rows (transactions db)));
      [exact H6|apply set_null_id].
  - destruct (_ && _); cbn [rows]; [|exact H7].
    apply Forall_map_keep; [exact H7|]. intros t Ht.
    destruct (set_null_fields cid t) as [_ [_ [-> _]]]. exact Ht.
  - destruct (_ && _); cbn [rows]; [|exact H8].
    apply Forall_map_keep; [exact H8|]. intros t Ht.
    destruct (set_null_fields cid t) as [_ [_ [_ [-> _]]]]. exact Ht.
Qed.

Lemma add_tx_consistent (db : Database) (now dt k : string)
  (a : Num.decimal) (c : option Z) (d : option string) :
  consistent db -> consistent (store_after db (add_tx db now dt k a c d)).
Proof.
  intros H. unfold add_tx.
  destruct (Num.float_of_decimal a) as [x|]; cbn [bind]; [|exact H].
  destruct (Num.is_nan x) eqn:Hx; [exact H|].
  destruct (kind_check k) eqn:Hk; simpl; [|exact H].
  destruct (reference_ok db c); simpl; [|exact H].
  destruct H as [H1 H2 H3 H4 H5 H6 H7 H8].
  destruct (NoDup_append_fresh tx_id (rows (transactions db))
              {| tx_id := new_rowid tx_id (transactions db);
                 tx_dt := dt; tx_kind := k;
                 tx_amount := Num.real_column x;
                 tx_category_id := c; tx_description := d;
                 tx_created_at := now |}
              (seq (transactions db)) H5 eq_refl) as [Ha Hb].
  constructor; cbn [with_transactions categories transactions rows seq];
    try assumption.
  - now apply Forall_append.
  - apply Forall_append; [assumption|].
    cbn [tx_amount]. now rewrite real_column_not_nan.
Qed.

Lemma edit_tx_consistent (db : Database) (tid : Z) (dt k : string)
  (a : Num.decimal) (c : option Z) (d : option string) :
  consistent db -> consistent (store_after db (edit_tx db tid dt k a c d)).
Proof.
  intros H. unfold edit_tx.
  destruct (Num.float_of_decimal a) as [x|]; cbn [bind]; [|exact H].
  destruct (has_transaction tid (rows (transactions db))); [|exact H].
  destruct (Num.is_nan x) eqn:Hx; [exact H|].
  destruct (kind_check k) eqn:Hk; simpl; [|exact H].
  destruct (reference_ok db c); simpl; [|exact H].
  destruct H as [H1 H2 H3 H4 H5 H6 H7 H8].
  set (new := fun r => {| tx_id := tid; tx_dt := dt; tx_kind := k;
                          tx_amount := Num.real_column x;
                          tx_category_id := c;
                          tx_description := d;
                          tx_created_at := tx_created_at r |}).
  assert (Hids : map tx_id
                   (map (fun r => if tx_id r =? tid then new r else r)
                      (rows (transactions db)))
                 = map tx_id (rows (transactions db))).
  { apply map_id_update. reflexivity. }
  constructor; cbn [with_transactions categories transactions rows seq];
    try assumption.
  - change (NoDup (map tx_id
                     (map (fun r => if tx_id r =? tid then new r else r)
                        (rows (transactions db))))).
    now rewrite Hids.
  - change (max_rowid tx_id
              (map (fun r => if tx_id r =? tid then new r else r)
                 (rows (transactions db)))
            <= seq (transactions db)).
    rewrite (max_rowid_ids tx_id _ _ Hids). exact H6.
  - apply (Forall_update _ (fun r => tx_id r =? tid) new);
      [exact H7|intros ?; exact Hk].
  - apply (Forall_update _ (fun r => tx_id r =? tid) new);
      [exact H8|intros ?; exact (eq_trans (real_column_not_nan x) Hx)].
Qed.

Lemma del_tx_consistent (db : Database) (tid : Z) :
  consistent db -> consistent (del_tx db tid).
Proof.
  intros [H1 H2 H3 H4 H5 H6 H7 H8]. unfold del_tx.
  constructor; cbn [with_transactions categories transactions rows seq];
    try assumption.
  - now apply NoDup_map_filter.
  - pose proof (max_rowid_filter tx_id
                  (fun r => negb (tx_id r =? tid))
                  (rows (transactions db))).
    lia.
  - now apply Forall_filter.
  - now apply Forall_filter.
Qed.

Lemma run_keeps_consistent (db : Database) (c : command) :
  consistent db -> consistent (run db c).
Proof.
  intros H. destruct c; cbn [run].
  - now apply add_cat_consistent.
  - now apply edit_cat_consistent.
  - now apply del_cat_consistent.
  - now apply add_tx_consistent.
  - now apply edit_tx_consistent.
  - now apply del_tx_consistent.
  - now apply restart_consistent.
Qed.

Lemma fresh_store_consistent : consistent (Database_new empty_file).
Proof.
  unfold Database_new, _init, _create_defaults. apply seed_consistent.
  constructor; simpl; try constructor; lia.
Qed.

Lemma session_keeps_consistent (cs : list command) : forall db,
  consistent db -> consistent (fold_left run cs db).
Proof.
  induction cs as [|c cs IH]; intros db H; [exact H|].
  simpl. apply IH. now apply run_keeps_consistent.
Qed.

(** X5: the guarantees of the schema hold in every state the program
    can reach.  Starting from a fresh file, or from any state in which
    they hold, after any sequence of calls (adding, editing and deleting
    categories and transactions, restarting the program), whether the
    calls return or raise: ids are distinct and not above the
    AUTOINCREMENT counter, category names are distinct, every kind is
    one of the two, and no amount is NULL. *)
Theorem store_stays_consistent (cs : list command) :
  consistent (fold_left run cs (Database_new empty_file))
  /\ forall db, consistent db -> consistent (fold_left run cs db).
Proof.
  split; [|apply session_keeps_consistent].
  apply session_keeps_consistent, fresh_store_consistent.
Qed.

Lemma ioi_seq_mono (db : Database) (n k : string) :
  seq (categories db) <= seq (categories (insert_or_ignore_category db n k)).
Proof.
  unfold insert_or_ignore_category, new_rowid.
  destruct (_ || _); cbn [with_categories categories seq]; lia.
Qed.

Lemma seed_seq_mono (l : list (string * string)) : forall db,
  seq (categories db) <= seq (categories (seed l db)).
Proof.
  unfold seed. induction l as [|nk l IH]; intros db; simpl; [lia|].
  etransitivity; [apply ioi_seq_mono|apply IH].
Qed.

Lemma run_seq_mono (db : Database) (c : command) :
  seq (categories db) <= seq (categories (run db c))
  /\ seq (transactions db) <= seq (transactions (run db c)).
Proof.
  destruct c; cbn [run].
  - unfold add_cat, new_rowid.
    destruct (negb _); [simpl; lia|].
    destruct (name_taken _ _); simpl; lia.
  - unfold edit_cat.
    destruct (has_category _ _); [|simpl; lia].
    destruct (negb _); [simpl; lia|].
    destruct (existsb _ _); simpl; lia.
  - unfold del_cat. cbn [categories transactions seq].
    destruct (_ && _); simpl; lia.
  - unfold add_tx, new_rowid.
    destruct (Num.float_of_decimal amount); cbn [bind]; [|simpl; lia].
    destruct (Num.is_nan _); [simpl; lia|].
    destruct (negb _); [simpl; lia|].
    destruct (negb _); simpl; lia.
  - unfold edit_tx.
    destruct (Num.float_of_decimal amount); cbn [bind]; [|simpl; lia].
    destruct (has_transaction _ _); [|simpl; lia].
    destruct (Num.is_nan _); [simpl; lia|].
    destruct (negb _); [simpl; lia|].
    destruct (negb _); simpl; lia.
  - unfold del_tx. simpl. lia.
  - unfold Database_new, _init, _create_defaults.
    rewrite seed_transactions. split; [|simpl; lia].
    etransitivity; [|apply seed_seq_mono]. simpl. lia.
Qed.

Lemma session_seq_mono (cs : list command) : forall db,
  seq (categories db) <= seq (categories (fold_left run cs db))
  /\ seq (transactions db) <= seq (transactions (fold_left run cs db)).
Proof.
  induction cs as [|c cs IH]; intros db; simpl; [lia|].
  destruct (run_seq_mono db c), (IH (run db c)). lia.
Qed.

(** X6: an id is never handed out twice.  Whatever calls follow
    (deletions and restarts included), the id the next inserted
    transaction or category receives is larger than the id of every
    transaction or category the store has held so far. *)
Theorem ids_never_reused (db : Database) (cs : list command) :
  consistent db ->
  (forall t, In t (rows (transactions db)) ->
     tx_id t < new_rowid tx_id (transactions (fold_left run cs db)))
  /\ (forall c, In c (rows (categories db)) ->
        cat_id c < new_rowid cat_id (categories (fold_left run cs db))).
Proof.
  intros [H1 H2 H3 H4 H5 H6 H7 H8].
  destruct (session_seq_mono cs db) as [Hc Ht]. unfold new_rowid.
  split.
  - intros t Hin. pose proof (max_rowid_bound tx_id _ t Hin). lia.
  - intros c Hin. pose proof (max_rowid_bound cat_id _ c Hin). lia.
Qed.

Lemma ids_never_reused_witness :
  (forall t, In t (rows (transactions (run (Database_new empty_file)
                (AddTx clock "2024-01-03" "expense" (Num.DFin 45000 (-2))
                   (Some 3) (Some "taxi home"))))) ->
     tx_id t
     < new_rowid tx_id
         (transactions
            (fold_left run [DelTx 1; DelCat 3; Restart]
               (run (Database_new empty_file)
                  (AddTx clock "2024-01-03" "expense"
                     (Num.DFin 45000 (-2)) (Some 3) (Some "taxi home"))))))
  /\ (forall c, In c (rows (categories (run (Database_new empty_file)
                   (AddTx clock "2024-01-03" "expense"
                      (Num.DFin 45000 (-2)) (Some 3)
                      (Some "taxi home"))))) ->
        cat_id c
        < new_rowid cat_id
            (categories
               (fold_left run [DelTx 1; DelCat 3; Restart]
                  (run (Database_new empty_file)
                     (AddTx clock "2024-01-03" "expense"
                        (Num.DFin 45000 (-2)) (Some 3)
                        (Some "taxi home")))))).
Proof.
  apply ids_never_reused.
  apply run_keeps_consistent, fresh_store_consistent.
Defined.

(** ** Deleting a category and the report by category *)

Lemma same_name_same_category (l : list category) (a b : category) :
  NoDup (map cat_name l) -> In a l -> In b l ->
  cat_name a = cat_name b -> a = b.
Proof.
  induction l as [|r l IH]; simpl; [tauto|].
  intros Hd Ha Hb Hn. inversion Hd as [|? ? Hr Hd']; subst.
  destruct Ha as [Ha|Ha], Hb as [Hb|Hb]; subst.
  - reflexivity.
  - exfalso. apply Hr. rewrite Hn. now apply in_map.
  - exfalso. apply Hr. rewrite <- Hn. now apply in_map.
  - now apply IH.
Qed.

(** X7: on the connection the program opens, deleting a category
    leaves its transactions in place, pointing at the id that is gone;
    [find_tx] then shows them without a category name, and [cat_sums]
    no longer reports any amount under the deleted category's name:
    their totals drop out of the report by category. *)
Theorem del_cat_drops_from_totals (db : Database) (c : category)
  (start end_ kind : option string)
  (res : list (string * option Num.float)) :
  consistent db ->
  foreign_keys db = false ->
  In c (rows (categories db)) ->
  cat_sums (del_cat db (cat_id c)) start end_ kind res ->
  ~ In (cat_name c) (map fst res)
  /\ transactions (del_cat db (cat_id c)) = transactions db
  /\ (forall t, tx_category_id t = Some (cat_id c) ->
        category_name (join_category (del_cat db (cat_id c)) t) = None).
Proof.
  intros Hcons Hfk Hc [gs [[Hp _] Hr]].
  split; [|split].
  - intros Hin. subst res. rewrite map_map in Hin.
    apply in_map_iff in Hin. destruct Hin as [g [Hg Hin]]. simpl in Hg.
    apply (Permutation_in g (Permutation_sym Hp)) in Hin.
    apply in_cat_groups in Hin. destruct Hin as [Hin _].
    unfold del_cat in Hin. cbn [categories rows] in Hin.
    apply filter_In in Hin. destruct Hin as [Hin Hne].
    assert (group_category g = c).
    { apply (same_name_same_category (rows (categories db)));
        [apply Hcons|exact Hin|exact Hc|exact Hg]. }
    subst c. rewrite Z.eqb_refl in Hne. discriminate.
  - now apply del_cat_unenforced.
  - intros t Ht. unfold join_category, del_cat. cbn [categories rows].
    rewrite Ht. cbn [category_name].
    rewrite (find_filter_out cat_id (cat_id c) (cat_id c)).
    now rewrite Z.eqb_refl.
Qed.

Lemma del_cat_drops_from_totals_witness :
  ~ In (cat_name {| cat_id := 1; cat_name := "Продукты";
                    cat_kind := "expense" |})
      (map fst
         [("Кафе и рестораны",
           Some (S754_finite false 5629499534213120 (-49)))])
  /\ transactions
       (del_cat two_expenses
          (cat_id {| cat_id := 1; cat_name := "Продукты";
                     cat_kind := "expense" |}))
     = transactions two_expenses
  /\ (forall t,
        tx_category_id t
        = Some (cat_id {| cat_id := 1; cat_name := "Продукты";
                          cat_kind := "expense" |}) ->
        category_name
          (join_category
             (del_cat two_expenses
                (cat_id {| cat_id := 1; cat_name := "Продукты";
                           cat_kind := "expense" |})) t) = None).
Proof.
  apply (del_cat_drops_from_totals two_expenses _ None None None).
  - apply session_keeps_consistent, fresh_store_consistent.
  - reflexivity.
  - vm_compute. left. reflexivity.
  - exists [{| group_category := {| cat_id := 2;
                                    cat_name := "Кафе и рестораны";
                                    cat_kind := "expense" |};
               group_total :=
                 Some (S754_finite false 5629499534213120 (-49)) |}].
    split; [split|reflexivity].
    + vm_compute. apply Permutation_refl.
    + repeat constructor.
Defined.

(** ** Listing categories *)

Lemma name_order_total (a b : category) :
  name_order a b = true \/ name_order b a = true.
Proof. apply String.leb_total. Qed.

Lemma kind_name_order_total (a b : category) :
  kind_name_order a b = true \/ kind_name_order b a = true.
Proof.
  unfold kind_name_order.
  rewrite (String.compare_antisym (cat_kind b) (cat_kind a)).
  destruct (String.compare (cat_kind a) (cat_kind b)); simpl; auto.
  apply String.leb_total.
Qed.

(** X8: [get_cats] asked for one of the two kinds returns exactly the
    categories of that kind, in ascending order of name; asked for
    anything else ([None], "all", ...) it returns all categories,
    ordered by kind and then by name.  Nothing is dropped or
    repeated. *)
Theorem get_cats_listing (db : Database) (kind : option string) :
  match listed_kind kind with
  | Some k =>
      Permutation (get_cats db kind)
        (filter (fun c => (cat_kind c =? k)%string) (rows (categories db)))
      /\ Sorted (fun a b => String.leb (cat_name a) (cat_name b) = true)
           (get_cats db kind)
      /\ Forall (fun c => cat_kind c = k) (get_cats db kind)
  | None =>
      Permutation (get_cats db kind) (rows (categories db))
      /\ Sorted (fun a b => kind_name_order a b = true) (get_cats db kind)
  end.
Proof.
  unfold listed_kind, get_cats.
  destruct kind as [k|]; [destruct (kind_check k)|].
  - split; [symmetry; apply order_by_perm|]. split.
    + apply (order_by_sorted name_order name_order_total).
    + apply Forall_forall. intros c Hc.
      apply (Permutation_in c (Permutation_sym (order_by_perm _ _))) in Hc.
      apply filter_In in Hc. now apply String.eqb_eq.
  - split; [symmetry; apply order_by_perm|].
    apply (order_by_sorted kind_name_order kind_name_order_total).
  - split; [symmetry; apply order_by_perm|].
    apply (order_by_sorted kind_name_order kind_name_order_total).
Qed.

(** ** Opening the database *)

Lemma name_taken_prefix (n : string) (l l' : list category) :
  name_taken n (l ++ l') = false -> name_taken n l = false.
Proof.
  unfold name_taken. rewrite existsb_app. intros H.
  apply orb_false_iff in H. tauto.
Qed.

Lemma ioi_rows (db : Database) (n k : string) :
  rows (categories (insert_or_ignore_category db n k))
  = rows (categories db)
  \/ (name_taken n (rows (categories db)) = false
      /\ rows (categories (insert_or_ignore_category db n k))
         = (rows (categories db)
            ++ [{| cat_id := new_rowid cat_id (categories db);
                   cat_name := n; cat_kind := k |}])%list).
Proof.
  unfold insert_or_ignore_category.
  destruct (negb (kind_check k) || name_taken n (rows (categories db)))
    eqn:E; [left; reflexivity|].
  right. apply orb_false_iff in E. split; [tauto|reflexivity].
Qed.

Lemma seed_extends (l : list (string * string)) : forall db,
  exists added,
    rows (categories (seed l db)) = (rows (categories db) ++ added)%list
    /\ Forall (fun c => In (cat_name c, cat_kind c) l
                        /\ name_taken (cat_name c) (rows (categories db))
                           = false) added.
Proof.
  unfold seed. induction l as [|nk l IH]; intros db.
  - exists []. split; [now rewrite app_nil_r|constructor].
  - cbn [fold_left].
    destruct (IH (insert_or_ignore_category db (fst nk) (snd nk)))
      as [added [Hr Ha]].
    destruct (ioi_rows db (fst nk) (snd nk)) as [Hsame|[Hn Hnew]].
    + rewrite Hsame in Hr, Ha. exists added. split; [exact Hr|].
      revert Ha. apply Forall_impl. intros c [H1 H2].
      split; [now right|exact H2].
    + rewrite Hnew in Hr, Ha.
      exists ({| cat_id := new_rowid cat_id (categories db);
                 cat_name := fst nk; cat_kind := snd nk |} :: added).
      split; [rewrite Hr, <- app_assoc; reflexivity|].
      constructor.
      * split; [|exact Hn]. left. simpl. now destruct nk.
      * revert Ha. apply Forall_impl. intros c [H1 H2].
        split; [now right|]. now apply name_taken_prefix in H2.
Qed.

(** X9: opening the database never loses data.  The transactions are
    those of the file; the categories of the file are kept as they are
    and in their order; the only rows added are default categories
    whose names were not in the file; and afterwards every default name
    is present, so a default category that was deleted or renamed
    comes back at the next start. *)
Theorem Database_new_keeps_data (f : db_file) :
  transactions (Database_new f)
  = create_table_if_not_exists (file_transactions f)
  /\ (exists added,
        rows (categories (Database_new f))
        = (rows (create_table_if_not_exists (file_categories f))
           ++ added)%list
        /\ Forall (fun c =>
                     In (cat_name c, cat_kind c) defaults
                     /\ name_taken (cat_name c)
                          (rows (create_table_if_not_exists
                                   (file_categories f))) = false) added)
  /\ Forall (fun nk =>
               name_taken (fst nk) (rows (categories (Database_new f)))
               = true) defaults.
Proof.
  unfold Database_new, _init, _create_defaults.
  split; [|split].
  - now rewrite seed_transactions.
  - exact (seed_extends defaults _).
  - apply Forall_forall. intros nk Hnk.
    apply seed_taken; [exact defaults_kinds|exact Hnk].
Qed.

(** ** The handlers of the windows *)

(** X10: [CategoryWindow.add_cat] never lets an exception escape and
    never stores an empty name.  A name that is empty once stripped is
    refused with a warning and the store is not touched; a name already
    in use (or a kind outside the two) gives the warning "Такая
    категория уже существует" and leaves the store as it was; otherwise
    the category is stored under the stripped name and nothing is
    shown. *)
Theorem CategoryWindow_add_cat_outcome (strip : string -> string)
  (db : Database) (name kind : string) :
  CategoryWindow_add_cat strip db name kind
  = if (strip name =? "")%string then Ok (db, Some empty_name)
    else if negb (kind_check kind)
            || name_taken (strip name) (rows (categories db))
    then Ok (db, Some already_exists)
    else
      Ok (with_categories db
            {| rows := rows (categories db)
                       ++ [{| cat_id := new_rowid cat_id (categories db);
                              cat_name := strip name;
                              cat_kind := kind |}];
               seq := new_rowid cat_id (categories db) |}, None).
Proof.
  unfold CategoryWindow_add_cat, add_cat.
  destruct (strip name =? "")%string; [reflexivity|].
  destruct (kind_check kind); simpl; [|reflexivity].
  destruct (name_taken _ _); reflexivity.
Qed.

(** X11: renaming a category to the name of another one is refused.
    [edit_cat] raises the UNIQUE error, and [CategoryWindow.edit_cat]
    shows SQLite's message in a warning and leaves the store as it
    was. *)
Theorem edit_cat_name_collision (strip : string -> string)
  (db : Database) (cid : Z) (name kind : string) (other : category) :
  has_category cid (rows (categories db)) = true ->
  kind_check kind = true ->
  strip name <> "" ->
  In other (rows (categories db)) ->
  cat_name other = strip name ->
  cat_id other <> cid ->
  edit_cat db cid (strip name) kind = Raise unique_failed
  /\ CategoryWindow_edit_cat strip db (Some cid) name kind
     = (db, Some (Warning "UNIQUE constraint failed: categories.name")).
Proof.
  intros Hc Hk Hn Hin Hname Hid.
  assert (H : edit_cat db cid (strip name) kind = Raise unique_failed).
  { unfold edit_cat. rewrite Hc, Hk. cbn [negb].
    replace (existsb _ (rows (categories db))) with true; [reflexivity|].
    symmetry. apply existsb_exists. exists other. split; [exact Hin|].
    rewrite Hname, String.eqb_refl. apply Z.eqb_neq in Hid.
    now rewrite Hid. }
  split; [exact H|]. unfold CategoryWindow_edit_cat.
  destruct (String.eqb_spec (strip name) ""); [contradiction|].
  now rewrite H.
Qed.

Lemma edit_cat_name_collision_witness :
  edit_cat (Database_new empty_file) 1 (ascii_strip " Транспорт ")
    "income" = Raise unique_failed
  /\ CategoryWindow_edit_cat ascii_strip (Database_new empty_file)
       (Some 1) " Транспорт " "income"
     = (Database_new empty_file,
        Some (Warning "UNIQUE constraint failed: categories.name")).
Proof.
  apply (edit_cat_name_collision ascii_strip (Database_new empty_file) 1
           " Транспорт " "income"
           {| cat_id := 3; cat_name := "Транспорт";
              cat_kind := "expense" |}).
  - reflexivity.
  - reflexivity.
  - vm_compute. discriminate.
  - vm_compute. tauto.
  - reflexivity.
  - discriminate.
Defined.

(** ** Filters that are present but empty *)

(** X12: [find_tx] treats every falsy argument as absent: an empty
    string as a date bound or as the search text, the category id 0,
    and a kind other than the two ("all", for one) restrict nothing. *)
Theorem find_tx_ignores_empty_fields (db : Database)
  (start end_ : option string) (category : option Z)
  (kind text : option string) :
  find_tx db start end_ category kind text
  = find_tx db (truthy_text start) (truthy_text end_) (truthy_id category)
      (listed_kind kind) (truthy_text text).
Proof.
  unfold find_tx. f_equal.
  - assert (Hsel :
      filter (fun r => where_start start (row_tx r)
                       && where_end end_ (row_tx r)
                       && where_category category (row_tx r)
                       && where_kind kind (row_tx r))
        (map (join_category db) (rows (transactions db)))
      = filter (fun r => where_start (truthy_text start) (row_tx r)
                         && where_end (truthy_text end_) (row_tx r)
                         && where_category (truthy_id category) (row_tx r)
                         && where_kind (listed_kind kind) (row_tx r))
          (map (join_category db) (rows (transactions db)))).
    { apply filter_ext. intros r. f_equal; [f_equal; [f_equal|]|].
      - destruct start as [x|]; [|reflexivity]. simpl.
        destruct (String.eqb_spec x ""); [reflexivity|]. simpl.
        destruct (String.eqb_spec x ""); [contradiction|reflexivity].
      - destruct end_ as [x|]; [|reflexivity]. simpl.
        destruct (String.eqb_spec x ""); [reflexivity|]. simpl.
        destruct (String.eqb_spec x ""); [contradiction|reflexivity].
      - destruct category as [i|]; [|reflexivity]. simpl.
        destruct (Z.eqb_spec i 0); [reflexivity|]. simpl.
        destruct (Z.eqb_spec i 0); [contradiction|reflexivity].
      - destruct kind as [k|]; [|reflexivity]. simpl.
        destruct (kind_check k) eqn:E; [|reflexivity]. simpl.
        now rewrite E. }
    rewrite Hsel. destruct text as [x|]; [|reflexivity]. simpl.
    destruct (String.eqb_spec x ""); [reflexivity|]. simpl.
    destruct (String.eqb_spec x ""); [contradiction|reflexivity].
Qed.

(** ** A search text that is too long *)

(** X13: a search text of more than 49998 bytes makes [find_tx] raise
    OperationalError ("LIKE or GLOB pattern too complex") as soon as one
    transaction passes the other filters: the pattern built around it
    exceeds SQLite's limit of 50000 bytes. *)
Theorem find_tx_text_too_long (db : Database) (start end_ : option string)
  (category : option Z) (kind : option string) (text : string)
  (t : transaction) :
  In t (rows (transactions db)) ->
  where_start start t && where_end end_ t && where_category category t
  && where_kind kind t = true ->
  Text.like_pattern_limit - 2 < Z.of_nat (String.length text) ->
  find_tx db start end_ category kind (Some text)
  = Raise pattern_too_complex.
Proof.
  intros Hin Ht Hlen. unfold find_tx.
  destruct (String.eqb_spec text "") as [E|_].
  { subst text. unfold Text.like_pattern_limit in Hlen. simpl in Hlen.
    lia. }
  set (sel := filter _ _).
  assert (Hsel : In (join_category db t) sel).
  { apply filter_In. split; [now apply in_map|exact Ht]. }
  destruct sel as [|r sel']; [contradiction|].
  replace (Text.like_pattern_limit
           <? Z.of_nat (String.length ("%" ++ text ++ "%"))) with true;
    [reflexivity|].
  symmetry. apply Z.ltb_lt. rewrite !length_append. simpl String.length.
  lia.
Qed.

Lemma find_tx_text_too_long_witness :
  find_tx (store_after (Database_new empty_file) taxi_ride)
    (Some "2024-01-01") None None (Some "expense")
    (Some (long_text 49999))
  = Raise pattern_too_complex.
Proof.
  apply (find_tx_text_too_long
           (store_after (Database_new empty_file) taxi_ride)
           (Some "2024-01-01") None None (Some "expense")
           (long_text 49999)
           {| tx_id := 1; tx_dt := "2024-01-03"; tx_kind := "expense";
              tx_amount := S754_finite false 7916483719987200 (-44);
              tx_category_id := Some 3;
              tx_description := Some "taxi home";
              tx_created_at := clock |}).
  - vm_compute. left. reflexivity.
  - reflexivity.
  - vm_compute. reflexivity.
Defined.

(** ** Editing through the dialog *)

(** X14: when the dialog of [MainWindow.edit_tx] is accepted with an
    amount that [Decimal] cannot read, or reads as a value [a <= 0] or
    as a NaN, the selected transaction is left as it was: [get_info]
    raises (ValueError, or decimal.InvalidOperation for a NaN) before
    [Database.edit_tx] is called, and the text of the exception is
    shown in a warning. *)
Theorem edit_tx_rejects_bad_amount
  (Decimal : string -> option Num.decimal) (strip : string -> string)
  (db : Database) (tid : Z) (old : transaction)
  (w : EditTransactionWindow) :
  get_transaction db tid = Some old ->
  Decimal (replace_comma (strip (dlg_amount w))) = None
  \/ (exists d, Decimal (replace_comma (strip (dlg_amount w))) = Some d
                /\ Num.dec_le0 d <> Ok false) ->
  exists e,
    get_info Decimal strip w = Raise e
    /\ MainWindow_edit_tx Decimal strip db (Some tid) w
       = (db, Some (Warning (str_exn e)))
    /\ ((exists msg, e = ValueError msg)
        \/ (e = InvalidOperation
            /\ exists s, Decimal (replace_comma (strip (dlg_amount w)))
                         = Some (Num.DNaN s))).
Proof.
  intros Hold H.
  destruct (get_info_bad_amount Decimal strip w H) as [e [He Hc]].
  exists e. split; [exact He|]. split; [|exact Hc].
  unfold MainWindow_edit_tx. rewrite Hold, He. reflexivity.
Qed.

Lemma edit_tx_rejects_bad_amount_witness :
  exists e,
    get_info ascii_Decimal ascii_strip (sample_dialog "nan") = Raise e
    /\ MainWindow_edit_tx ascii_Decimal ascii_strip
         (store_after (Database_new empty_file) taxi_ride) (Some 1)
         (sample_dialog "nan")
       = (store_after (Database_new empty_file) taxi_ride,
          Some (Warning (str_exn e)))
    /\ ((exists msg, e = ValueError msg)
        \/ (e = InvalidOperation
            /\ exists s,
                 ascii_Decimal
                   (replace_comma
                      (ascii_strip (dlg_amount (sample_dialog "nan"))))
                 = Some (Num.DNaN s))).
Proof.
  apply (edit_tx_rejects_bad_amount ascii_Decimal ascii_strip
           (store_after (Database_new empty_file) taxi_ride) 1
           {| tx_id := 1; tx_dt := "2024-01-03"; tx_kind := "expense";
              tx_amount := S754_finite false 7916483719987200 (-44);
              tx_category_id := Some 3;
              tx_description := Some "taxi home";
              tx_created_at := clock |}).
  - vm_compute. reflexivity.
  - right. exists (Num.DNaN false). split; [reflexivity|discriminate].
Defined.

(** ** The dates of the running balance *)

Lemma running_total_dates (rws : list (string * option Num.float)) :
  forall total res,
    running_total total rws = Ok res -> map fst res = map fst rws.
Proof.
  induction rws as [|[dt delta] rws IH]; intros total res; simpl.
  - intros H. injection H as <-. reflexivity.
  - destruct (Num.dec_add total (delta_decimal delta)) as [total'|];
      cbn [bind]; [|discriminate].
    destruct (Num.float_of_decimal total') as [x|]; cbn [bind];
      [|discriminate].
    destruct (running_total total' rws) as [res'|] eqn:E; cbn [bind];
      [|discriminate].
    intros H. injection H as <-. simpl. f_equal. exact (IH _ _ E).
Qed.

Lemma insert_key_In (k x : string) (ks : list string) :
  In x (insert_key k ks) <-> x = k \/ In x ks.
Proof.
  induction ks as [|k' ks IH]; simpl; [intuition|].
  destruct (String.compare k k') eqn:E; simpl.
  - apply String.compare_eq_iff in E. subst. intuition.
  - intuition.
  - rewrite IH. intuition.
Qed.

Lemma group_keys_In (l : list transaction) (d : string) :
  In d (group_keys l) <-> exists t, In t l /\ tx_dt t = d.
Proof.
  unfold group_keys. induction l as [|t l IH]; simpl.
  - split; [tauto|]. intros [t [[] _]].
  - rewrite insert_key_In, IH. split.
    + intros [->|[t' [H1 H2]]]; [exists t; auto|exists t'; auto].
    + intros [t' [[<-|H1] H2]]; [left; auto|right; exists t'; auto].
Qed.

Lemma insert_key_sorted (k : string) (ks : list string) :
  Sorted (fun a b => String.ltb a b = true) ks ->
  Sorted (fun a b => String.ltb a b = true) (insert_key k ks).
Proof.
  induction 1 as [|k' ks Hs IH Hd]; simpl.
  - repeat constructor.
  - destruct (String.compare k k') eqn:E.
    + constructor; assumption.
    + constructor; [constructor; assumption|]. constructor.
      unfold String.ltb. now rewrite E.
    + constructor; [exact IH|].
      assert (Hlt : String.ltb k' k = true).
      { unfold String.ltb. rewrite String.compare_antisym, E.
        reflexivity. }
      destruct ks as [|k'' ks]; simpl.
      * constructor. exact Hlt.
      * destruct (String.compare k k''); constructor;
          try exact Hlt; inversion Hd; assumption.
Qed.

Lemma group_keys_sorted (l : list transaction) :
  Sorted (fun a b => String.ltb a b = true) (group_keys l).
Proof.
  unfold group_keys. induction l as [|t l IH]; simpl; [constructor|].
  apply insert_key_sorted. exact IH.
Qed.

(** X15: whenever [get_balance] returns, its result has one entry for
    each date on which some transaction lies within the bounds, no
    entry for any other date, and the dates are in strictly ascending
    order. *)
Theorem get_balance_dates (db : Database) (start end_ : option string)
  (res : list (string * Num.float)) :
  get_balance db start end_ = Ok res ->
  Sorted (fun a b => String.ltb a b = true) (map fst res)
  /\ forall d, In d (map fst res) <->
       exists t, In t (rows (transactions db))
                 /\ in_range start end_ t = true /\ tx_dt t = d.
Proof.
  unfold get_balance, balance_rows. intros H.
  apply running_total_dates in H. rewrite map_map in H. simpl in H.
  rewrite map_id in H. rewrite H. split.
  - apply group_keys_sorted.
  - intros d. rewrite group_keys_In. split.
    + intros [t [Ht Hd]]. apply filter_In in Ht. exists t. tauto.
    + intros [t [Ht [Hr Hd]]]. exists t. split; [|exact Hd].
      apply filter_In. tauto.
Qed.

Lemma get_balance_dates_witness :
  Sorted (fun a b => String.ltb a b = true)
    (map fst [("2024-01-01", S754_finite false 4925812092436480 (-46));
              ("2024-01-02", S754_finite false 6333186975989760 (-46))])
  /\ forall d,
       In d (map fst
               [("2024-01-01", S754_finite false 4925812092436480 (-46));
                ("2024-01-02", S754_finite false 6333186975989760 (-46))])
       <-> exists t,
             In t (rows (transactions
                           (store_after (Database_new empty_file)
                              three_entries)))
             /\ in_range None (Some "2024-12-31") t = true /\ tx_dt t = d.
Proof.
  apply get_balance_dates. vm_compute. reflexivity.
Defined.

(** ** Amounts that are not finite *)

(** X16: the dialog accepts an infinite amount.  When [Decimal] reads
    the amount text as positive infinity, [get_info] returns it (it is
    greater than 0), and [MainWindow.add_tx] stores a transaction whose
    amount is the REAL infinity, with no message. *)
Theorem add_tx_accepts_infinity
  (Decimal : string -> option Num.decimal) (strip : string -> string)
  (db : Database) (now dt : string) (w : EditTransactionWindow) :
  to_iso (dlg_date w) = Ok dt ->
  kind_check (dlg_type w) = true ->
  foreign_keys db = false ->
  Decimal (replace_comma (strip (dlg_amount w))) = Some (Num.DInf false) ->
  MainWindow_add_tx Decimal strip db now w
  = (with_transactions db
       {| rows := rows (transactions db)
                  ++ [{| tx_id := new_rowid tx_id (transactions db);
                         tx_dt := dt; tx_kind := dlg_type w;
                         tx_amount := S754_infinity false;
                         tx_category_id := dlg_cat w;
                         tx_description := Some (strip (dlg_desc w));
                         tx_created_at := now |}];
          seq := new_rowid tx_id (transactions db) |}, None).
Proof.
  intros Hd Hk Hfk Ha. unfold MainWindow_add_tx, get_info.
  rewrite Hd, Ha. cbn [bind Num.dec_le0]. unfold add_tx.
  cbn [Num.float_of_decimal bind Num.is_nan]. rewrite Hk.
  assert (Hr : reference_ok db (dlg_cat w) = true).
  { unfold reference_ok. destruct (dlg_cat w); [|reflexivity].
    now rewrite Hfk. }
  rewrite Hr. reflexivity.
Qed.

Lemma add_tx_accepts_infinity_witness :
  MainWindow_add_tx Decimal_with_infinity ascii_strip
    (Database_new empty_file) clock (sample_dialog " Infinity ")
  = (with_transactions (Database_new empty_file)
       {| rows := rows (transactions (Database_new empty_file))
                  ++ [{| tx_id := new_rowid tx_id
                                    (transactions (Database_new empty_file));
                         tx_dt := "2024-01-05";
                         tx_kind := dlg_type (sample_dialog " Infinity ");
                         tx_amount := S754_infinity false;
                         tx_category_id :=
                           dlg_cat (sample_dialog " Infinity ");
                         tx_description :=
                           Some (ascii_strip
                                   (dlg_desc (sample_dialog " Infinity ")));
                         tx_created_at := clock |}];
          seq := new_rowid tx_id
                   (transactions (Database_new empty_file)) |}, None).
Proof.
  apply add_tx_accepts_infinity; vm_compute; reflexivity.
Defined.

(** ** Letters outside ASCII *)







Lemma search_cyrillic_case :
  where_text ("%" ++ "кафе" ++ "%") dinner_row = false
  /\ where_text ("%" ++ "Кафе" ++ "%") dinner_row = true.
Proof. split; vm_compute; reflexivity. Qed.

(** ** What [find_tx] never returns *)

Lemma find_tx_rows (db : Database) (start end_ : option string)
  (category : option Z) (kind text : option string)
  (found : list tx_row) :
  find_tx db start end_ category kind text = Ok found ->
  (forall r, In r found ->
     In (row_tx r) (rows (transactions db))
     /\ r = join_category db (row_tx r)
     /\ where_start start (row_tx r) = true
     /\ where_end end_ (row_tx r) = true
     /\ where_category category (row_tx r) = true
     /\ where_kind kind (row_tx r) = true)
  /\ (NoDup (map tx_id (rows (transactions db))) ->
      NoDup (map (fun r => tx_id (row_tx r)) found)).
Proof.
  unfold find_tx.
  set (joined := map (join_category db) (rows (transactions db))).
  set (sel := filter _ joined).
  intros H.
  assert (Hsub : exists sel', Permutation found sel'
                              /\ exists p, sel' = filter p sel).
  { destruct text as [x|].
    - destruct (x =? "")%string.
      + cbn [bind] in H. injection H as <-. exists sel.
        split; [symmetry; apply order_by_perm|].
        exists (fun _ => true). clear. induction sel; simpl; congruence.
      + destruct sel as [|r0 sel0] eqn:Es.
        * cbn [bind] in H. injection H as <-. exists [].
          split; [reflexivity|]. exists (fun _ => true). reflexivity.
        * destruct (_ <? _); cbn [bind] in H; [discriminate|].
          injection H as <-. eexists.
          split; [symmetry; apply order_by_perm|]. eexists. reflexivity.
    - cbn [bind] in H. injection H as <-. exists sel.
      split; [symmetry; apply order_by_perm|].
      exists (fun _ => true). clear. induction sel; simpl; congruence. }
  destruct Hsub as [sel' [Hp [p ->]]]. split.
  - intros r Hr. apply (Permutation_in r Hp) in Hr.
    apply filter_In in Hr. destruct Hr as [Hr _].
    apply filter_In in Hr. destruct Hr as [Hr Hf].
    apply in_map_iff in Hr. destruct Hr as [t [<- Ht]].
    cbn [join_category row_tx] in *.
    apply andb_true_iff in Hf. destruct Hf as [Hf H4].
    apply andb_true_iff in Hf. destruct Hf as [Hf H3].
    apply andb_true_iff in Hf. destruct Hf as [H1 H2].
    repeat split; assumption.
  - intros Hd.
    apply (Permutation_NoDup
             (l := map (fun r => tx_id (row_tx r)) (filter p sel))).
    + apply Permutation_map. symmetry. exact Hp.
    + assert (Hj : NoDup (map (fun r => tx_id (row_tx r)) joined)).
      { unfold joined. rewrite map_map. exact Hd. }
      clear - Hj. unfold sel.
      generalize (fun r : tx_row =>
                    where_start start (row_tx r)
                    && where_end end_ (row_tx r)
                    && where_category category (row_tx r)
                    && where_kind kind (row_tx r)).
      intros q. revert Hj. generalize joined. clear. intros l Hl.
      assert (Hf : forall (f : tx_row -> bool) (l : list tx_row),
                 NoDup (map (fun r => tx_id (row_tx r)) l) ->
                 NoDup (map (fun r => tx_id (row_tx r)) (filter f l))).
      { intros f l0. induction l0 as [|r l0 IH]; simpl; [trivial|].
        intros H. inversion H as [|? ? Hn Hd]; subst.
        destruct (f r); simpl; [|exact (IH Hd)].
        constructor; [|exact (IH Hd)].
        intros Hin. apply Hn. apply in_map_iff in Hin.
        destruct Hin as [x [Hx Hin]]. apply filter_In in Hin.
        apply in_map_iff. exists x. tauto. }
      apply Hf, Hf, Hl.
Qed.

(** X18: whatever the search text, wildcards included, [find_tx] never
    returns a row that fails the date bounds, the category or the
    kind asked for; every row it returns is the join of a stored
    transaction, and no stored transaction is returned more often than
    it is stored. *)
Theorem find_tx_sound (db : Database) (start end_ : option string)
  (category : option Z) (kind text : option string)
  (found : list tx_row) :
  find_tx db start end_ category kind text = Ok found ->
  (forall r, In r found ->
     In (row_tx r) (rows (transactions db))
     /\ r = join_category db (row_tx r)
     /\ where_start start (row_tx r) = true
     /\ where_end end_ (row_tx r) = true
     /\ where_category category (row_tx r) = true
     /\ where_kind kind (row_tx r) = true)
  /\ (NoDup (map tx_id (rows (transactions db))) ->
      NoDup (map (fun r => tx_id (row_tx r)) found)).
Proof.
  intros H. exact (find_tx_rows db start end_ category kind text found H).
Qed.

Lemma find_tx_sound_witness :
  (forall r,
     In r [{| row_tx :=
                {| tx_id := 1; tx_dt := "2024-01-03";
                   tx_kind := "expense";
                   tx_amount := S754_finite false 7916483719987200 (-44);
                   tx_category_id := Some 3;
                   tx_description := Some "taxi home";
                   tx_created_at := clock |};
              category_name := Some "Транспорт" |}] ->
     In (row_tx r)
       (rows (transactions
                (store_after (Database_new empty_file) taxi_ride)))
     /\ r = join_category
              (store_after (Database_new empty_file) taxi_ride) (row_tx r)
     /\ where_start (Some "2024-01-01") (row_tx r) = true
     /\ where_end None (row_tx r) = true
     /\ where_category (Some 3) (row_tx r) = true
     /\ where_kind (Some "all") (row_tx r) = true)
  /\ (NoDup (map tx_id
               (rows (transactions
                        (store_after (Database_new empty_file)
                           taxi_ride)))) ->
      NoDup (map (fun r => tx_id (row_tx r))
               [{| row_tx :=
                     {| tx_id := 1; tx_dt := "2024-01-03";
                        tx_kind := "expense";
                        tx_amount :=
                          S754_finite false 7916483719987200 (-44);
                        tx_category_id := Some 3;
                        tx_description := Some "taxi home";
                        tx_created_at := clock |};
                   category_name := Some "Транспорт" |}])).
Proof.
  apply (find_tx_sound (store_after (Database_new empty_file) taxi_ride)
           (Some "2024-01-01") None (Some 3) (Some "all") (Some "t%x")).
  vm_compute. reflexivity.
Defined.

(** ** Dates as text *)

Lemma below_In (n z : Z) :
  0 <= z < n -> In z (below n).
Proof.
  intros H. unfold below. apply in_map_iff. exists (Z.to_nat z).
  split; [lia|]. apply in_seq. lia.
Qed.

Lemma two_digits_checked :
  forallb (fun u => forallb (two_digits_ok u) (below 100)) (below 100)
  = true.
Proof. vm_compute. reflexivity. Qed.

Lemma four_digits_checked : forallb four_digits_ok (below 10000) = true.
Proof. vm_compute. reflexivity. Qed.

Lemma two_digits (u v : Z) :
  0 <= u < 100 -> 0 <= v < 100 ->
  String.length (zero_pad 2 u) = 2%nat
  /\ String.compare (zero_pad 2 u) (zero_pad 2 v) = (u ?= v).
Proof.
  intros Hu Hv. pose proof two_digits_checked as H.
  rewrite forallb_forall in H.
  specialize (H u (below_In 100 u Hu)).
  rewrite forallb_forall in H.
  specialize (H v (below_In 100 v Hv)).
  unfold two_digits_ok in H. apply andb_true_iff in H.
  destruct H as [H1 H2]. apply Nat.eqb_eq in H1. split; [exact H1|].
  destruct (String.compare (zero_pad 2 u) (zero_pad 2 v)), (u ?= v);
    congruence.
Qed.

Lemma four_digits (y : Z) :
  0 <= y < 10000 ->
  zero_pad 4 y = (zero_pad 2 (y / 100) ++ zero_pad 2 (y mod 100))%string.
Proof.
  intros Hy. pose proof four_digits_checked as H.
  rewrite forallb_forall in H.
  specialize (H y (below_In 10000 y Hy)).
  now apply String.eqb_eq.
Qed.

Lemma compare_append (a a' b b' : string) :
  String.length a = String.length a' ->
  String.compare (a ++ b) (a' ++ b')
  = match String.compare a a' with
    | Eq => String.compare b b'
    | c => c
    end.
Proof.
  revert a'. induction a as [|c a IH]; intros [|c' a'] H;
    try discriminate; [reflexivity|].
  simpl in *. destruct (Ascii.compare c c'); [|reflexivity|reflexivity].
  apply IH. congruence.
Qed.

Lemma four_digits_compare (y y' : Z) :
  0 <= y < 10000 -> 0 <= y' < 10000 ->
  String.length (zero_pad 4 y) = 4%nat
  /\ String.compare (zero_pad 4 y) (zero_pad 4 y') = (y ?= y').
Proof.
  intros Hy Hy'. rewrite !four_digits by assumption.
  assert (Hh : 0 <= y / 100 < 100)
    by (split; [apply Z.div_pos|apply Z.div_lt_upper_bound]; lia).
  assert (Hh' : 0 <= y' / 100 < 100)
    by (split; [apply Z.div_pos|apply Z.div_lt_upper_bound]; lia).
  assert (Hl : 0 <= y mod 100 < 100) by (apply Z.mod_pos_bound; lia).
  assert (Hl' : 0 <= y' mod 100 < 100) by (apply Z.mod_pos_bound; lia).
  destruct (two_digits (y / 100) (y' / 100) Hh Hh') as [L1 C1].
  destruct (two_digits (y' / 100) (y / 100) Hh' Hh) as [L1' _].
  destruct (two_digits (y mod 100) (y' mod 100) Hl Hl') as [L2 C2].
  split; [rewrite length_append, L1, L2; reflexivity|].
  rewrite compare_append by congruence. rewrite C1, C2.
  pose proof (Z.div_mod y 100). pose proof (Z.div_mod y' 100).
  destruct (Z.compare_spec (y / 100) (y' / 100)),
    (Z.compare_spec (y mod 100) (y' mod 100)),
    (Z.compare_spec y y'); try reflexivity; lia.
Qed.

Lemma to_iso_fields (qd : QDate) (s : string) :
  to_iso qd = Ok s ->
  1 <= year qd <= 9999 /\ 1 <= month qd <= 12
  /\ 1 <= day qd <= days_in_month (year qd) (month qd)
  /\ s = (zero_pad 4 (year qd) ++ "-" ++ zero_pad 2 (month qd) ++ "-"
          ++ zero_pad 2 (day qd))%string.
Proof.
  unfold to_iso.
  destruct (Z.ltb_spec (year qd) 1), (Z.ltb_spec 9999 (year qd));
    simpl; try discriminate.
  destruct (Z.ltb_spec (month qd) 1), (Z.ltb_spec 12 (month qd));
    simpl; try discriminate.
  destruct (Z.ltb_spec (day qd) 1),
    (Z.ltb_spec (days_in_month (year qd) (month qd)) (day qd));
    simpl; try discriminate.
  intros E. injection E as <-. repeat split; lia.
Qed.

Lemma days_in_month_bound (y m : Z) : days_in_month y m <= 31.
Proof.
  unfold days_in_month.
  destruct (m =? 2); [destruct (is_leap y); lia|].
  destruct (_ || _); lia.
Qed.

Lemma to_iso_compare (a b : QDate) (sa sb : string) :
  to_iso a = Ok sa -> to_iso b = Ok sb ->
  String.compare sa sb = date_compare a b
  /\ String.length sa = 10%nat.
Proof.
  intros Ha Hb.
  destruct (to_iso_fields a sa Ha) as [Hy [Hm [Hd ->]]].
  destruct (to_iso_fields b sb Hb) as [Hy' [Hm' [Hd' ->]]].
  pose proof (days_in_month_bound (year a) (month a)).
  pose proof (days_in_month_bound (year b) (month b)).
  destruct (four_digits_compare (year a) (year b)) as [Ly Cy]; [lia|lia|].
  destruct (four_digits_compare (year b) (year a)) as [Ly' _]; [lia|lia|].
  destruct (two_digits (month a) (month b)) as [Lm Cm]; [lia|lia|].
  destruct (two_digits (month b) (month a)) as [Lm' _]; [lia|lia|].
  destruct (two_digits (day a) (day b)) as [Ld Cd]; [lia|lia|].
  split.
  - unfold date_compare.
    rewrite compare_append by congruence. rewrite Cy.
    destruct (year a ?= year b); try reflexivity.
    change ("-" ++ zero_pad 2 (month a) ++ "-" ++ zero_pad 2 (day a))%string
      with (String "-" (zero_pad 2 (month a) ++ "-"
                        ++ zero_pad 2 (day a)))%string.
    change ("-" ++ zero_pad 2 (month b) ++ "-" ++ zero_pad 2 (day b))%string
      with (String "-" (zero_pad 2 (month b) ++ "-"
                        ++ zero_pad 2 (day b)))%string.
    cbn [String.compare]. change (Ascii.compare "-" "-") with Eq.
    cbv iota. rewrite compare_append by congruence. rewrite Cm.
    destruct (month a ?= month b); try reflexivity.
    change ("-" ++ zero_pad 2 (day a))%string
      with (String "-" (zero_pad 2 (day a))).
    change ("-" ++ zero_pad 2 (day b))%string
      with (String "-" (zero_pad 2 (day b))).
    cbn [String.compare]. change (Ascii.compare "-" "-") with Eq.
    cbv iota. exact Cd.
  - rewrite !length_append, Ly, Lm, Ld. reflexivity.
Qed.

(** X19: the text [to_iso] produces sorts as the calendar does.  For
    two dates it accepts, comparing the texts byte by byte, as the
    conditions [dt >= ?] and [dt <= ?] and the clause [ORDER BY dt] do,
    gives the same answer as comparing year, month and day; in
    particular different dates have different texts. *)
Theorem to_iso_order (a b : QDate) (sa sb : string) :
  to_iso a = Ok sa -> to_iso b = Ok sb ->
  String.compare sa sb = date_compare a b
  /\ String.length sa = 10%nat.
Proof.
  intros Ha Hb. exact (to_iso_compare a b sa sb Ha Hb).
Qed.

Lemma to_iso_order_witness :
  String.compare "2024-02-29" "2024-03-01"
  = date_compare {| year := 2024; month := 2; day := 29 |}
      {| year := 2024; month := 3; day := 1 |}
  /\ String.length "2024-02-29" = 10%nat.
Proof.
  apply to_iso_order; vm_compute; reflexivity.
Defined.

(** ** The period shown in the main window *)

Lemma to_iso_nonempty (qd : QDate) (s : string) :
  to_iso qd = Ok s -> (s =? "")%string = false.
Proof.
  intros H. destruct (to_iso_compare qd qd s s H H) as [_ L].
  destruct s; [discriminate|reflexivity].
Qed.

(** X20: [MainWindow.refresh] never lists a transaction dated outside
    the period chosen in the two date boxes.  Every row it gets from
    [find_tx], whatever the other filters and the search text, has a
    date text between the texts of the two dates; for a transaction
    whose date text was produced by [to_iso] (as the dialog does), the
    date itself lies between the two dates of the boxes. *)
Theorem refresh_within_period (strip : string -> string) (db : Database)
  (fs fe : QDate) (fc : option Z) (fk fsr : string)
  (found : list tx_row) :
  MainWindow_refresh strip db fs fe fc fk fsr = Ok found ->
  Forall (fun r =>
            In (row_tx r) (rows (transactions db))
            /\ forall qd, to_iso qd = Ok (tx_dt (row_tx r)) ->
                 date_compare fs qd <> Gt /\ date_compare qd fe <> Gt)
    found.
Proof.
  unfold MainWindow_refresh. intros H. apply Forall_forall. intros r Hr.
  destruct (to_iso fs) as [s|] eqn:Hs; cbn [bind] in H; [|discriminate].
  destruct (to_iso fe) as [e|] eqn:He; cbn [bind] in H; [|discriminate].
  destruct (find_tx_rows _ _ _ _ _ _ _ H) as [Hrows _].
  destruct (Hrows r Hr) as [Hin [_ [H1 [H2 _]]]].
  split; [exact Hin|]. intros qd Hq.
  unfold where_start in H1. unfold where_end in H2.
  rewrite (to_iso_nonempty fs s Hs) in H1.
  rewrite (to_iso_nonempty fe e He) in H2.
  unfold String.leb in H1, H2.
  destruct (to_iso_compare fs qd _ _ Hs Hq) as [<- _].
  destruct (to_iso_compare qd fe _ _ Hq He) as [<- _].
  split; intros E; [rewrite E in H1|rewrite E in H2]; discriminate.
Qed.

Lemma refresh_within_period_witness :
  Forall (fun r =>
            In (row_tx r)
              (rows (transactions
                       (store_after (Database_new empty_file) taxi_ride)))
            /\ forall qd, to_iso qd = Ok (tx_dt (row_tx r)) ->
                 date_compare {| year := 2023; month := 12; day := 5 |} qd
                 <> Gt
                 /\ date_compare qd {| year := 2024; month := 1; day := 5 |}
                    <> Gt)
    [{| row_tx :=
          {| tx_id := 1; tx_dt := "2024-01-03"; tx_kind := "expense";
             tx_amount := S754_finite false 7916483719987200 (-44);
             tx_category_id := Some 3;
             tx_description := Some "taxi home";
             tx_created_at := clock |};
        category_name := Some "Транспорт" |}].
Proof.
  apply (refresh_within_period ascii_strip
           (store_after (Database_new empty_file) taxi_ride)
           {| year := 2023; month := 12; day := 5 |}
           {| year := 2024; month := 1; day := 5 |}
           None "all" "  ").
  vm_compute. reflexivity.
Defined.

(** ** The report by category *)

Lemma existsb_filter {A : Type} (p : A -> bool) (l : list A) :
  existsb p l = match filter p l with [] => false | _ :: _ => true end.
Proof.
  induction l as [|x l IH]; simpl; [reflexivity|].
  destruct (p x); [reflexivity|exact IH].
Qed.

Lemma in_group_counts (start end_ kind : option string) (c : category)
  (t : transaction) :
  start <> Some "" -> end_ <> Some "" ->
  match kind with Some k => kind_check k = true | None => True end ->
  in_group start end_ kind c t = Report.counts start end_ kind c t.
Proof.
  intros Hs He Hk. unfold in_group, Report.counts.
  rewrite where_start_present, where_end_present, where_kind_present
    by assumption.
  destruct (tx_category_id t) as [i|];
    [destruct (i =? cat_id c)|];
    repeat match goal with
           | |- context [match ?o with Some _ => _ | None => _ end] =>
               destruct o
           end;
    repeat match goal with
           | |- context [String.leb ?a ?b] => destruct (String.leb a b)
           | |- context [String.eqb ?a ?b] => destruct (String.eqb a b)
           end; reflexivity.
Qed.

Lemma sql_sum_total (xs : list Num.float) :
  sql_sum xs
  = let sum := fold_left (SFadd 53 1024) xs (S754_zero false) in
    match sum with
    | S754_nan => None
    | _ => Some sum
    end.
Proof.
  unfold sql_sum.
  change (fold_left Num.fadd xs Num.fzero)
    with (fold_left (SFadd 53 1024) xs (S754_zero false)).
  cbv zeta.
  destruct (fold_left (SFadd 53 1024) xs (S754_zero false)); reflexivity.
Qed.

(** The groups of the query are the rows of the report. *)
Lemma cat_groups_report (db : Database) (start end_ kind : option string) :
  start <> Some "" -> end_ <> Some "" ->
  match kind with Some k => kind_check k = true | None => True end ->
  map cat_row (cat_groups db start end_ kind)
  = Report.rows_of db start end_ kind.
Proof.
  intros Hs He Hk. unfold cat_groups, Report.rows_of.
  induction (rows (categories db)) as [|c l IH]; [reflexivity|].
  cbn [flat_map filter]. rewrite map_app, IH. clear IH.
  assert (R : Report.reported db start end_ kind c
              = match filter (Report.counts start end_ kind c)
                        (rows (transactions db)) with
                | [] => false
                | _ :: _ => true
                end) by apply existsb_filter.
  rewrite R. clear R.
  rewrite (filter_ext (in_group start end_ kind c)
             (Report.counts start end_ kind c)
             (fun t => in_group_counts start end_ kind c t Hs He Hk)).
  destruct (filter (Report.counts start end_ kind c)
              (rows (transactions db))) as [|t g] eqn:E.
  - reflexivity.
  - cbn [map app]. f_equal.
    unfold cat_row, Report.total. cbn [group_category group_total].
    rewrite E, sql_sum_total. reflexivity.
Qed.

Lemma total_desc_descending (a b : cat_group) :
  total_desc a b = true -> Report.descending (cat_row a) (cat_row b).
Proof.
  unfold total_desc, totals_desc, Report.descending, cat_row, Num.fleb.
  cbn [snd].
  destruct (group_total a), (group_total b); try exact (fun H => H);
    try (intros _; exact I); discriminate.
Qed.

(** C4, amended: for a store in the state the schema guarantees, and
    bounds and kind that are proper values where given, [cat_sums]
    always has a result, and every result is, up to the order of its
    rows, the report by category: exactly one row for each category
    towards which at least one transaction counts (it refers to the
    category, lies within the bounds and has the kind), carrying the
    category's name and the binary64 sum of those transactions'
    amounts.  Transactions without a category count towards none.  No
    name occurs twice, and the rows are in descending order of total.
    The order among rows of equal total is not fixed. *)
Theorem cat_sums_report (db : Database) (start end_ kind : option string) :
  consistent db ->
  start <> Some "" -> end_ <> Some "" ->
  match kind with Some k => kind_check k = true | None => True end ->
  (exists res, cat_sums db start end_ kind res)
  /\ forall res, cat_sums db start end_ kind res ->
       Permutation res (Report.rows_of db start end_ kind)
       /\ NoDup (map fst res)
       /\ Sorted Report.descending res.
Proof.
  intros Hc Hs He Hk. split.
  - eexists. apply cat_sums_exists.
  - intros res [gs [[Hp Hsort] ->]].
    assert (Hperm : Permutation (map cat_row gs)
                      (Report.rows_of db start end_ kind)).
    { rewrite <- (cat_groups_report db start end_ kind Hs He Hk).
      apply Permutation_map. symmetry. exact Hp. }
    split; [exact Hperm|]. split.
    + apply (Permutation_NoDup
               (l := map fst (Report.rows_of db start end_ kind))).
      * apply Permutation_map. symmetry. exact Hperm.
      * unfold Report.rows_of. rewrite map_map. cbn [fst].
        apply NoDup_names_filter. apply Hc.
    + apply Sorted_map.
      apply (Sorted_impl (fun a b => total_desc a b = true));
        [exact total_desc_descending|exact Hsort].
Qed.

Lemma cat_sums_report_witness :
  (exists res, cat_sums two_expenses None (Some "2024-12-31")
                 (Some "expense") res)
  /\ forall res,
       cat_sums two_expenses None (Some "2024-12-31") (Some "expense") res ->
       Permutation res
         (Report.rows_of two_expenses None (Some "2024-12-31")
            (Some "expense"))
       /\ NoDup (map fst res)
       /\ Sorted Report.descending res.
Proof.
  apply cat_sums_report.
  - apply session_keeps_consistent, fresh_store_consistent.
  - discriminate.
  - discriminate.
  - reflexivity.
Defined.

(** The report for the store with two expenses. *)
Lemma report_two_expenses :
  Report.rows_of two_expenses None (Some "2024-12-31") (Some "expense")
  = [("Продукты", Some (S754_finite false 5629499534213120 (-49)));
     ("Кафе и рестораны",
      Some (S754_finite false 5629499534213120 (-49)))]
  /\ Report.rows_of two_expenses None (Some "2024-03-01") None
     = [("Продукты", Some (S754_finite false 5629499534213120 (-49)))]
  /\ Report.rows_of two_expenses None None (Some "income") = [].
Proof. repeat split; vm_compute; reflexivity. Qed.
